(** * PNG chunk editor ([src/lib/image/png.ts]): shallow embedding and properties

    The development follows the TypeScript module top-down:
    bytes and 32-bit integers, JavaScript numbers, exceptions, the store of
    [ArrayBuffer] objects, [DataView] accessors, [calculateCRC] and the
    static methods of [PngHelpers]. *)

From Stdlib Require Import ZArith Lia List Strings.String Strings.Ascii Strings.Byte.
From stdpp Require Import base option list gmap strings.

Local Open Scope string_scope.
Local Open Scope list_scope.
Local Open Scope Z_scope.

(** ** Bytes *)

(** Unsigned value of a byte, as read by [getUint8] or a [Uint8Array]. *)
Definition u8 (b : byte) : Z := Z.of_N (Byte.to_N b).

(** The byte holding the low eight bits of an integer. *)
Definition byte_of_Z (z : Z) : byte :=
  default x00 (Byte.of_N (Z.to_N (z mod 256))).

(** Big-endian encoding of the low 32 bits (DataView setters, default
    endianness). *)
Definition be32 (z : Z) : list byte :=
  [ byte_of_Z (Z.shiftr z 24); byte_of_Z (Z.shiftr z 16);
    byte_of_Z (Z.shiftr z 8); byte_of_Z z ].

(** Big-endian unsigned decoding (DataView getters). *)
Definition be_decode (bs : list byte) : Z :=
  fold_left (fun acc b => acc * 256 + u8 b) bs 0.

(** ** 32-bit integers of JavaScript *)

Definition wrap32u (z : Z) : Z := z mod 2 ^ 32.
Definition wrap32s (z : Z) : Z := (z + 2 ^ 31) mod 2 ^ 32 - 2 ^ 31.

(** [a ^ b], [a & b] and [a >>> n] on integer-valued operands. *)
Definition js_xor (a b : Z) : Z := wrap32s (Z.lxor (wrap32s a) (wrap32s b)).
Definition js_and (a b : Z) : Z := wrap32s (Z.land (wrap32s a) (wrap32s b)).
Definition js_ushr (a n : Z) : Z := Z.shiftr (wrap32u a) (n mod 32).

(** ** JavaScript numbers

    A finite double is [m * 2^e]; only its conversion to a 32-bit integer is
    observed by this module, so zero carries no sign. *)
Inductive number :=
  | Finite (m e : Z)
  | NaN
  | Infinity (negative : bool).

Definition Int (z : Z) : number := Finite z 0.

(** Round [n * 2^e] to a 53-bit significand, ties to even.  Exponent
    overflow and gradual underflow are not represented: a product beyond
    the double range is a multiple of [2^32] and one in the subnormal range
    has magnitude below 1, so [ToInt32] gives 0 for them either way. *)
Definition round53 (n e : Z) : number :=
  let a := Z.abs n in
  let bits := Z.log2 a + 1 in
  if bits <=? 53 then Finite n e
  else
    let sh := bits - 53 in
    let q := Z.shiftr a sh in
    let r := Z.land a (Z.ones sh) in
    let half := Z.shiftl 1 (sh - 1) in
    let q' := if (half <? r) || ((r =? half) && Z.odd q) then q + 1 else q in
    Finite (Z.sgn n * q') (e + sh).

Definition number_mul (x y : number) : number :=
  match x, y with
  | NaN, _ | _, NaN => NaN
  | Infinity s, Infinity t => Infinity (xorb s t)
  | Infinity s, Finite m _ | Finite m _, Infinity s =>
      if m =? 0 then NaN else Infinity (xorb s (m <? 0))
  | Finite m1 e1, Finite m2 e2 => round53 (m1 * m2) (e1 + e2)
  end.

(** Integer part, rounding toward zero; 0 for NaN and the infinities. *)
Definition truncate (x : number) : Z :=
  match x with
  | Finite m e => if 0 <=? e then m * 2 ^ e else Z.quot m (2 ^ (- e))
  | _ => 0
  end.

Definition ToInt32 (x : number) : Z := wrap32s (truncate x).
Definition ToUint32 (x : number) : Z := wrap32u (truncate x).

(** ** Exceptions and results *)

Inductive js_error :=
  | RangeError
  | TypeError
  | Error (message : string).

(** The outcome of running a method with a bounded number of loop
    iterations: a value, a thrown exception, or the bound was reached. *)
Inductive result (A : Type) :=
  | Ok (a : A)
  | Throw (e : js_error)
  | OutOfFuel.
Arguments Ok {A} a.
Arguments Throw {A} e.
Arguments OutOfFuel {A}.

Definition bind {A B} (r : result A) (k : A -> result B) : result B :=
  match r with
  | Ok a => k a
  | Throw e => Throw e
  | OutOfFuel => OutOfFuel
  end.

(** [try { body } catch (error) { handler }].  The handlers of this module
    first call [logger.error], which only formats an entry and hands it to an
    [async] sender, so it returns normally; the log sink is not modelled. *)
Definition try_catch {A} (body : result A) (handler : js_error -> result A)
  : result A :=
  match body with
  | Throw e => handler e
  | r => r
  end.

Notation "'let!' x ':=' r 'in' k" := (bind r (fun x => k))
  (at level 10, x name, r at level 100, k at level 200).

(** ** The store of ArrayBuffer objects

    An [ArrayBuffer] is identified by its allocation index; the store holds
    the current bytes of each. *)
Abbreviation Store := (list (list byte)).

Definition ArrayBuffer_data (st : Store) (b : nat) : list byte :=
  default [] (st !! b).

Definition ArrayBuffer_byteLength (st : Store) (b : nat) : Z :=
  Z.of_nat (length (ArrayBuffer_data st b)).

Record DataView := mkDataView {
  buffer : nat;
  byteOffset : Z;
  byteLength : Z
}.

(** [new DataView(buffer)] *)
Definition new_DataView (st : Store) (b : nat) : DataView :=
  {| buffer := b; byteOffset := 0; byteLength := ArrayBuffer_byteLength st b |}.

(** GetViewValue: [ToIndex] rejects a negative index, then the bounds check
    against the view, then the raw bytes.  Offsets and indices are
    integer-valued numbers throughout the module and are modelled in [Z]. *)
Definition GetViewValue (st : Store) (view : DataView) (requestIndex : Z)
    (elementSize : nat) : result (list byte) :=
  if requestIndex <? 0 then Throw RangeError
  else if byteLength view <? requestIndex + Z.of_nat elementSize then Throw RangeError
  else
    let raw := take elementSize
                 (drop (Z.to_nat (byteOffset view + requestIndex))
                       (ArrayBuffer_data st (buffer view))) in
    if (length raw =? elementSize)%nat then Ok raw else Throw TypeError.

Definition getUint8 (st : Store) (view : DataView) (i : Z) : result Z :=
  let! raw := GetViewValue st view i 1 in Ok (be_decode raw).

Definition getUint32 (st : Store) (view : DataView) (i : Z) : result Z :=
  let! raw := GetViewValue st view i 4 in Ok (be_decode raw).

Definition getInt32 (st : Store) (view : DataView) (i : Z) : result Z :=
  let! raw := GetViewValue st view i 4 in Ok (wrap32s (be_decode raw)).

(** ** Constants for PNG processing *)

Definition SIGNATURE : list Z := [0x89; 0x50; 0x4e; 0x47; 0x0d; 0x0a; 0x1a; 0x0a].
(** [DPI_96 = 2835.5 = 5671 * 2^-1] *)
Definition DPI_96 : number := Finite 5671 (-1).
Definition LENGTH_SIZE : Z := 4.
Definition CRC_SIZE : Z := 4.

(** ** CRC32 lookup table

    The literals of the source; [Int32Array] stores each as a signed 32-bit
    integer. *)
Definition CRC_TABLE : list Z := map wrap32s [
    0x00000000; 0x77073096; 0xee0e612c; 0x990951ba; 0x076dc419; 0x706af48f;
    0xe963a535; 0x9e6495a3; 0x0edb8832; 0x79dcb8a4; 0xe0d5e91e; 0x97d2d988;
    0x09b64c2b; 0x7eb17cbd; 0xe7b82d07; 0x90bf1d91; 0x1db71064; 0x6ab020f2;
    0xf3b97148; 0x84be41de; 0x1adad47d; 0x6ddde4eb; 0xf4d4b551; 0x83d385c7;
    0x136c9856; 0x646ba8c0; 0xfd62f97a; 0x8a65c9ec; 0x14015c4f; 0x63066cd9;
    0xfa0f3d63; 0x8d080df5; 0x3b6e20c8; 0x4c69105e; 0xd56041e4; 0xa2677172;
    0x3c03e4d1; 0x4b04d447; 0xd20d85fd; 0xa50ab56b; 0x35b5a8fa; 0x42b2986c;
    0xdbbbc9d6; 0xacbcf940; 0x32d86ce3; 0x45df5c75; 0xdcd60dcf; 0xabd13d59;
    0x26d930ac; 0x51de003a; 0xc8d75180; 0xbfd06116; 0x21b4f4b5; 0x56b3c423;
    0xcfba9599; 0xb8bda50f; 0x2802b89e; 0x5f058808; 0xc60cd9b2; 0xb10be924;
    0x2f6f7c87; 0x58684c11; 0xc1611dab; 0xb6662d3d; 0x76dc4190; 0x01db7106;
    0x98d220bc; 0xefd5102a; 0x71b18589; 0x06b6b51f; 0x9fbfe4a5; 0xe8b8d433;
    0x7807c9a2; 0x0f00f934; 0x9609a88e; 0xe10e9818; 0x7f6a0dbb; 0x086d3d2d;
    0x91646c97; 0xe6635c01; 0x6b6b51f4; 0x1c6c6162; 0x856530d8; 0xf262004e;
    0x6c0695ed; 0x1b01a57b; 0x8208f4c1; 0xf50fc457; 0x65b0d9c6; 0x12b7e950;
    0x8bbeb8ea; 0xfcb9887c; 0x62dd1ddf; 0x15da2d49; 0x8cd37cf3; 0xfbd44c65;
    0x4db26158; 0x3ab551ce; 0xa3bc0074; 0xd4bb30e2; 0x4adfa541; 0x3dd895d7;
    0xa4d1c46d; 0xd3d6f4fb; 0x4369e96a; 0x346ed9fc; 0xad678846; 0xda60b8d0;
    0x44042d73; 0x33031de5; 0xaa0a4c5f; 0xdd0d7cc9; 0x5005713c; 0x270241aa;
    0xbe0b1010; 0xc90c2086; 0x5768b525; 0x206f85b3; 0xb966d409; 0xce61e49f;
    0x5edef90e; 0x29d9c998; 0xb0d09822; 0xc7d7a8b4; 0x59b33d17; 0x2eb40d81;
    0xb7bd5c3b; 0xc0ba6cad; 0xedb88320; 0x9abfb3b6; 0x03b6e20c; 0x74b1d29a;
    0xead54739; 0x9dd277af; 0x04db2615; 0x73dc1683; 0xe3630b12; 0x94643b84;
    0x0d6d6a3e; 0x7a6a5aa8; 0xe40ecf0b; 0x9309ff9d; 0x0a00ae27; 0x7d079eb1;
    0xf00f9344; 0x8708a3d2; 0x1e01f268; 0x6906c2fe; 0xf762575d; 0x806567cb;
    0x196c3671; 0x6e6b06e7; 0xfed41b76; 0x89d32be0; 0x10da7a5a; 0x67dd4acc;
    0xf9b9df6f; 0x8ebeeff9; 0x17b7be43; 0x60b08ed5; 0xd6d6a3e8; 0xa1d1937e;
    0x38d8c2c4; 0x4fdff252; 0xd1bb67f1; 0xa6bc5767; 0x3fb506dd; 0x48b2364b;
    0xd80d2bda; 0xaf0a1b4c; 0x36034af6; 0x41047a60; 0xdf60efc3; 0xa867df55;
    0x316e8eef; 0x4669be79; 0xcb61b38c; 0xbc66831a; 0x256fd2a0; 0x5268e236;
    0xcc0c7795; 0xbb0b4703; 0x220216b9; 0x5505262f; 0xc5ba3bbe; 0xb2bd0b28;
    0x2bb45a92; 0x5cb36a04; 0xc2d7ffa7; 0xb5d0cf31; 0x2cd99e8b; 0x5bdeae1d;
    0x9b64c2b0; 0xec63f226; 0x756aa39c; 0x026d930a; 0x9c0906a9; 0xeb0e363f;
    0x72076785; 0x05005713; 0x95bf4a82; 0xe2b87a14; 0x7bb12bae; 0x0cb61b38;
    0x92d28e9b; 0xe5d5be0d; 0x7cdcefb7; 0x0bdbdf21; 0x86d3d2d4; 0xf1d4e242;
    0x68ddb3f8; 0x1fda836e; 0x81be16cd; 0xf6b9265b; 0x6fb077e1; 0x18b74777;
    0x88085ae6; 0xff0f6a70; 0x66063bca; 0x11010b5c; 0x8f659eff; 0xf862ae69;
    0x616bffd3; 0x166ccf45; 0xa00ae278; 0xd70dd2ee; 0x4e048354; 0x3903b3c2;
    0xa7672661; 0xd06016f7; 0x4969474d; 0x3e6e77db; 0xaed16a4a; 0xd9d65adc;
    0x40df0b66; 0x37d83bf0; 0xa9bcae53; 0xdebb9ec5; 0x47b2cf7f; 0x30b5ffe9;
    0xbdbdf21c; 0xcabac28a; 0x53b39330; 0x24b4a3a6; 0xbad03605; 0xcdd70693;
    0x54de5729; 0x23d967bf; 0xb3667a2e; 0xc4614ab8; 0x5d681b02; 0x2a6f2b94;
    0xb40bbe37; 0xc30c8ea1; 0x5a05df1b; 0x2d02ef8d
  ].

(** [CRC_TABLE[i]] for an index inside the table. *)
Definition CRC_TABLE_at (i : Z) : Z := nth (Z.to_nat i) CRC_TABLE 0.

(** ** calculateCRC

    [current] is the element sequence of the [Uint8Array]; [previous] is an
    integer-valued number (default 0). *)
Definition calculateCRC (current : list byte) (previous : Z) : Z :=
  let crc := if previous =? 0 then 0 else js_xor (wrap32s previous) (-1) in
  let crc :=
    fold_left
      (fun crc byte =>
         js_xor (CRC_TABLE_at (js_and (js_xor crc (u8 byte)) 0xff)) (js_ushr crc 8))
      current crc in
  js_xor crc (-1).

(** ** Interfaces of the module *)

Module PngChunk.
Record t := mk { dataOffset : Z; size : Z; start : Z }.
End PngChunk.

Module PhysicalDimensions.
Record t := mk { ppux : Z; ppuy : Z; unit : Z }.
End PhysicalDimensions.

Record BlobPropertyBag := mkBlobPropertyBag {
  bag_type : option string;
  bag_endings : option string
}.

(** A [Blob] owns a copy of the bytes of its parts, taken when it is
    constructed, and keeps the property bag it was given. *)
Record Blob := mkBlob {
  blob_data : list byte;
  blob_options : option BlobPropertyBag
}.

(** ** Array and string helpers of the runtime *)

(** [array.every((element, index) => callback)] from position [index] on:
    stops at the first [false] and lets an exception of the callback escape. *)
Fixpoint Array_every (callback : Z -> Z -> result bool) (index : Z) (array : list Z)
  : result bool :=
  match array with
  | [] => Ok true
  | element :: rest =>
      let! test := callback element index in
      if test then Array_every callback (index + 1) rest else Ok false
  end.

(** [Array.from({ length }, (_, i) => callback)] from index [i] on. *)
Fixpoint Array_from {A} (length : nat) (callback : Z -> result A) (i : Z)
  : result (list A) :=
  match length with
  | O => Ok []
  | S length' =>
      let! x := callback i in
      let! xs := Array_from length' callback (i + 1) in
      Ok (x :: xs)
  end.

(** [String.fromCharCode] on a code below 256. *)
Definition fromCharCode (code : Z) : ascii := ascii_of_N (Z.to_N code).

(** [chars.join('')] *)
Definition join (chars : list ascii) : string := string_of_list_ascii chars.

Definition charCodeAt (s : string) (i : Z) : number :=
  if i <? 0 then NaN
  else match String.get (Z.to_nat i) s with
       | Some c => Int (Z.of_N (N_of_ascii c))
       | None => NaN
       end.

(** [buffer.slice(begin, end)] on the bytes: negative positions count from
    the end and both are clamped to the length. *)
Definition slice_bytes (data : list byte) (begin : Z) (end_ : option Z) : list byte :=
  let len := Z.of_nat (length data) in
  let clamp (relative : Z) :=
    if relative <? 0 then Z.max (len + relative) 0 else Z.min relative len in
  let first := clamp begin in
  let final := match end_ with Some e => clamp e | None => len end in
  let newLen := Z.max (final - first) 0 in
  take (Z.to_nat newLen) (drop (Z.to_nat first) data).

(** ** Methods that allocate or write: a state monad over the store *)

Definition M (A : Type) : Type := Store -> result A * Store.

Definition ret {A} (a : A) : M A := fun st => (Ok a, st).
Definition throwM {A} (e : js_error) : M A := fun st => (Throw e, st).
(** A computation that only reads the store. *)
Definition read {A} (f : Store -> result A) : M A := fun st => (f st, st).

Definition bindM {A B} (m : M A) (k : A -> M B) : M B :=
  fun st =>
    match m st with
    | (Ok a, st') => k a st'
    | (Throw e, st') => (Throw e, st')
    | (OutOfFuel, st') => (OutOfFuel, st')
    end.

Definition try_catchM {A} (body : M A) (handler : js_error -> M A) : M A :=
  fun st =>
    match body st with
    | (Throw e, st') => handler e st'
    | r => r
    end.

Notation "'run!' x ':=' m 'in' k" := (bindM m (fun x => k))
  (at level 10, x name, m at level 100, k at level 200).

(** [for (const x of xs) body(x)] *)
Fixpoint for_ {A} (xs : list A) (body : A -> M ()) : M () :=
  match xs with
  | [] => ret ()
  | x :: xs' => run! _ := body x in for_ xs' body
  end.

(** [new ArrayBuffer(n)]: a fresh zero-filled buffer. *)
Definition new_ArrayBuffer (n : nat) : M nat :=
  fun st => (Ok (length st), st ++ [replicate n x00]).

(** SetViewValue: the same checks as GetViewValue, then the bytes are
    written into the viewed buffer in place. *)
Definition SetViewValue (view : DataView) (requestIndex : Z) (bytes : list byte)
  : M () :=
  fun st =>
    if requestIndex <? 0 then (Throw RangeError, st)
    else if byteLength view <? requestIndex + Z.of_nat (length bytes)
    then (Throw RangeError, st)
    else
      let data := ArrayBuffer_data st (buffer view) in
      let pos := Z.to_nat (byteOffset view + requestIndex) in
      if (pos + length bytes <=? length data)%nat
      then (Ok (), <[buffer view := take pos data ++ bytes ++ drop (pos + length bytes) data]> st)
      else (Throw TypeError, st).

Definition setUint8 (view : DataView) (i : Z) (value : number) : M () :=
  SetViewValue view i [byte_of_Z (truncate value)].
Definition setInt8 (view : DataView) (i : Z) (value : number) : M () :=
  SetViewValue view i [byte_of_Z (truncate value)].
Definition setUint32 (view : DataView) (i : Z) (value : number) : M () :=
  SetViewValue view i (be32 (ToUint32 value)).
Definition setInt32 (view : DataView) (i : Z) (value : number) : M () :=
  SetViewValue view i (be32 (ToInt32 value)).

(** [buffer.slice(begin, end)]: a fresh buffer holding the copied range. *)
Definition ArrayBuffer_slice (b : nat) (begin : Z) (end_ : option Z) : M nat :=
  fun st => (Ok (length st), st ++ [slice_bytes (ArrayBuffer_data st b) begin end_]).

(** [new Blob(parts, options)] *)
Definition new_Blob (parts : list nat) (options : option BlobPropertyBag) : M Blob :=
  fun st =>
    (Ok {| blob_data := concat (map (ArrayBuffer_data st) parts);
           blob_options := options |}, st).

(** ** Helper class for PNG manipulation *)

Module PngHelpers.

(** Checks if the data represents a PNG image. *)
Definition isPng (st : Store) (view : DataView) (offset : Z) : result bool :=
  try_catch
    (Array_every
       (fun byte index =>
          let! b := getUint8 st view (offset + index) in Ok (b =? byte))
       0 SIGNATURE)
    (fun error => Ok false).

(** Gets the type of a PNG chunk. *)
Definition getChunkType (st : Store) (view : DataView) (offset : Z) : result string :=
  try_catch
    (let! chars :=
       Array_from 4
         (fun i => let! code := getUint8 st view (offset + i) in Ok (fromCharCode code))
         0 in
     Ok (join chars))
    (fun error => Throw (Error "Failed to read chunk type")).

(** The [while] loop of [readChunks]; one unit of [fuel] per iteration. *)
Fixpoint readChunks_while (fuel : nat) (st : Store) (view : DataView) (offset : Z)
    (chunks : gmap string PngChunk.t) : result (gmap string PngChunk.t) :=
  match fuel with
  | O => OutOfFuel
  | S fuel' =>
      if offset <=? ArrayBuffer_byteLength st (buffer view) then
        let start := offset in
        let! len := getInt32 st view offset in
        let offset := offset + LENGTH_SIZE in
        let! chunkType := getChunkType st view offset in
        if (chunkType =? "IDAT")%string && bool_decide (is_Some (chunks !! chunkType))
        then
          (* Skip duplicate IDAT chunks *)
          readChunks_while fuel' st view (offset + (len + LENGTH_SIZE + CRC_SIZE)) chunks
        else if (chunkType =? "IEND")%string
        then
          (* End of PNG file *)
          Ok chunks
        else
          let chunks :=
            <[chunkType := {| PngChunk.start := start;
                              PngChunk.dataOffset := offset + 4;
                              PngChunk.size := len |}]> chunks in
          readChunks_while fuel' st view (offset + (len + LENGTH_SIZE + CRC_SIZE)) chunks
      else Ok chunks
  end.

(** Reads all chunks from a PNG file. *)
Definition readChunks (fuel : nat) (st : Store) (view : DataView) (offset : Z)
  : result (gmap string PngChunk.t) :=
  try_catch
    (let! png := isPng st view offset in
     if negb png then Throw (Error "Invalid PNG signature")
     else
       let chunks : gmap string PngChunk.t := ∅ in
       let offset := offset + Z.of_nat (length SIGNATURE) in
       readChunks_while fuel st view offset chunks)
    (fun error => Throw (Error "Failed to read PNG chunks")).

(** Parses physical dimension information from a PNG chunk. *)
Definition parsePhys (st : Store) (view : DataView) (offset : Z)
  : result PhysicalDimensions.t :=
  try_catch
    (let! ppux := getUint32 st view offset in
     let! ppuy := getUint32 st view (offset + 4) in
     let! unit := getUint8 st view (offset + 4) in
     Ok {| PhysicalDimensions.ppux := ppux;
           PhysicalDimensions.ppuy := ppuy;
           PhysicalDimensions.unit := unit |})
    (fun error => Throw (Error "Failed to parse physical dimensions")).

(** Finds a specific chunk in a PNG file.  [chunks[type]] is the own
    property: [type] ranges over chunk type codes, four characters long,
    and [Object.prototype] has no property with such a name. *)
Definition findChunk (fuel : nat) (st : Store) (view : DataView) (type : string)
  : result (option PngChunk.t) :=
  try_catch
    (let! chunks := readChunks fuel st view 0 in
     Ok (chunks !! type))
    (fun error => Throw (Error ("Failed to find chunk: " +:+ type))).

(** Sets physical dimension information in a PNG file. *)
Definition setPhysChunk (fuel : nat) (view : DataView) (dpr : number)
    (options : option BlobPropertyBag) : M Blob :=
  try_catchM
    (let offset := 46 in
     let size := 0 in
     (* Try to find existing pHYs chunk *)
     run! physChunk := read (fun st => findChunk fuel st view "pHYs") in
     let '(offset, size) :=
       match physChunk with
       | Some c => (PngChunk.start c, PngChunk.size c)
       | None => (offset, size)
       end in
     (* If no pHYs chunk, insert before IDAT *)
     run! idatChunk := read (fun st => findChunk fuel st view "IDAT") in
     let '(offset, size) :=
       match idatChunk with
       | Some c => (PngChunk.start c, 0)
       | None => (offset, size)
       end in
     (* Create new pHYs chunk *)
     run! pHYsData := new_ArrayBuffer 21 in
     run! pHYsView := read (fun st => Ok (new_DataView st pHYsData)) in
     (* Set chunk length *)
     run! _ := setUint32 pHYsView 0 (Int 9) in
     (* Set chunk type *)
     let chunkType := "pHYs" in
     run! _ := for_ [0; 1; 2; 3]
                 (fun i => setUint8 pHYsView (4 + i) (charCodeAt chunkType i)) in
     (* Set physical dimensions *)
     let dpi := number_mul DPI_96 dpr in
     run! _ := setInt32 pHYsView 8 dpi in
     run! _ := setInt32 pHYsView 12 dpi in
     run! _ := setInt8 pHYsView 16 (Int 1) in
     (* Calculate and set CRC *)
     run! crcData := ArrayBuffer_slice pHYsData 4 (Some 17) in
     run! crc := read (fun st => Ok (calculateCRC (ArrayBuffer_data st crcData) 0)) in
     run! _ := setInt32 pHYsView 17 (Int crc) in
     (* Combine chunks *)
     run! startBuffer := ArrayBuffer_slice (buffer view) 0 (Some offset) in
     run! endBuffer := ArrayBuffer_slice (buffer view) (offset + size) None in
     new_Blob [startBuffer; pHYsData; endBuffer] options)
    (fun error => throwM (Error "Failed to set physical dimensions")).

End PngHelpers.

(** ** The PNG byte layout

    A chunk is a 4-byte big-endian length, a 4-byte type code, the data and
    a 4-byte CRC; a file is the signature, the chunks, the [IEND] chunk and
    whatever trails it. *)

Record Chunk := mkChunk {
  chunk_type : list byte;
  chunk_data : list byte;
  chunk_crc : list byte
}.

(** The type code as the string [getChunkType] builds from its bytes. *)
Definition chunk_name (c : Chunk) : string :=
  join (map (fun b => fromCharCode (u8 b)) (chunk_type c)).

Definition encode_chunk (c : Chunk) : list byte :=
  be32 (Z.of_nat (length (chunk_data c))) ++ chunk_type c ++ chunk_data c ++ chunk_crc c.

(** Bytes a chunk occupies: length field, type, data, CRC. *)
Definition chunk_span (c : Chunk) : Z := 12 + Z.of_nat (length (chunk_data c)).

Definition chunks_span (cs : list Chunk) : Z :=
  fold_right (fun c n => chunk_span c + n) 0 cs.

Definition wf_chunk (c : Chunk) : Prop :=
  length (chunk_type c) = 4%nat /\
  length (chunk_crc c) = 4%nat /\
  Z.of_nat (length (chunk_data c)) < 2 ^ 31.

Definition signature_bytes : list byte := map byte_of_Z SIGNATURE.

Definition png_bytes (chunks : list Chunk) (iend : Chunk) (trailing : list byte)
  : list byte :=
  signature_bytes ++ flat_map encode_chunk chunks ++ encode_chunk iend ++ trailing.

Record valid_png (chunks : list Chunk) (iend : Chunk) : Prop := {
  valid_chunks : Forall wf_chunk chunks;
  valid_no_early_iend : Forall (fun c => chunk_name c <> "IEND") chunks;
  valid_iend : wf_chunk iend;
  valid_iend_name : chunk_name iend = "IEND";
  valid_iend_empty : chunk_data iend = []
}.

(** The table entry of a chunk that starts at [offset]. *)
Definition chunk_entry (offset : Z) (c : Chunk) : PngChunk.t :=
  {| PngChunk.start := offset;
     PngChunk.dataOffset := offset + 8;
     PngChunk.size := Z.of_nat (length (chunk_data c)) |}.

(** The chunk table of a chunk sequence laid out from [offset]: the first
    [IDAT] is kept, any other type is overwritten by a later chunk. *)
Fixpoint chunk_table (offset : Z) (cs : list Chunk) (table : gmap string PngChunk.t)
  : gmap string PngChunk.t :=
  match cs with
  | [] => table
  | c :: rest =>
      let table' :=
        if (chunk_name c =? "IDAT")%string && bool_decide (is_Some (table !! "IDAT"))
        then table
        else <[chunk_name c := chunk_entry offset c]> table in
      chunk_table (offset + chunk_span c) rest table'
  end.

(** ** The reference CRC-32 of zlib and PNG

    The checksum [calculateCRC] is specified to equal, written from the
    specification's words and bit by bit, without the table: the reflected
    CRC-32 with polynomial [0xEDB88320], register initialised to all ones,
    one byte per step, the final value complemented. *)
Definition crc32_shift (c : Z) : Z :=
  if Z.testbit c 0 then Z.lxor (Z.shiftr c 1) 0xEDB88320 else Z.shiftr c 1.

Definition crc32_byte (c : Z) (b : byte) : Z :=
  Nat.iter 8 crc32_shift (Z.lxor c (u8 b)).

Definition crc32_reference (bytes : list byte) : Z :=
  Z.lxor (fold_left crc32_byte bytes 0xFFFFFFFF) 0xFFFFFFFF.

(** [round(x)] of the specification's round-trip property: the nearest
    integer, halves rounded up. *)
Definition Math_round (x : number) : Z :=
  match x with
  | Finite m e =>
      if 0 <=? e then m * 2 ^ e
      else (2 * m + 2 ^ (- e)) / (2 * 2 ^ (- e))
  | _ => 0
  end.

(** ** The chunk [setPhysChunk] builds *)

Definition pHYs_type : list byte := list_byte_of_string "pHYs".

(** Type and payload, the 13 bytes the checksum is taken over. *)
Definition pHYs_body (dpr : number) : list byte :=
  let dpi := number_mul DPI_96 dpr in
  pHYs_type ++ be32 (ToInt32 dpi) ++ be32 (ToInt32 dpi) ++ [byte_of_Z 1].

Definition pHYs_chunk (dpr : number) : list byte :=
  be32 9 ++ pHYs_body dpr ++ be32 (calculateCRC (pHYs_body dpr) 0).

(** Where [setPhysChunk] splices: the replaced range [(offset, size)]. *)
Definition splice_range (phys idat : option PngChunk.t) : Z * Z :=
  match idat with
  | Some c => (PngChunk.start c, 0)
  | None =>
      match phys with
      | Some c => (PngChunk.start c, PngChunk.size c)
      | None => (46, 0)
      end
  end.

(** ** Sample files *)

Definition chunk_of (type : string) (data : list byte) : Chunk :=
  let t := list_byte_of_string type in
  {| chunk_type := t; chunk_data := data;
     chunk_crc := be32 (crc32_reference (t ++ data)) |}.

Definition bytes_of (zs : list Z) : list byte := map byte_of_Z zs.

(** 1x1 pixel, 8-bit greyscale. *)
Definition IHDR_1x1 : Chunk := chunk_of "IHDR" (bytes_of [0;0;0;1; 0;0;0;1; 8;0;0;0;0]).
(** The zlib stream of the single scanline [00 00]. *)
Definition IDAT_1x1 : Chunk := chunk_of "IDAT" (bytes_of [120;218;99;96;0;0;0;2;0;1]).
(** The same stream split over two chunks. *)
Definition IDAT_1x1_a : Chunk := chunk_of "IDAT" (bytes_of [120;218;99;96;0]).
Definition IDAT_1x1_b : Chunk := chunk_of "IDAT" (bytes_of [0;0;2;0;1]).
(** 2835 pixels per metre in both directions. *)
Definition pHYs_72dpi : Chunk := chunk_of "pHYs" (bytes_of [0;0;11;19; 0;0;11;19; 1]).
Definition tEXt_note : Chunk := chunk_of "tEXt" (bytes_of [110;0;120]).
Definition IEND : Chunk := chunk_of "IEND" [].

Definition png_plain : list byte := png_bytes [IHDR_1x1; IDAT_1x1] IEND [].
Definition png_with_phys : list byte := png_bytes [IHDR_1x1; pHYs_72dpi; IDAT_1x1] IEND [].
Definition png_two_idat : list byte :=
  png_bytes [IHDR_1x1; IDAT_1x1_a; IDAT_1x1_b; tEXt_note] IEND [].
Definition png_header_only : list byte := png_bytes [IHDR_1x1] IEND [].

(** Signature, then a chunk whose length field is [FF FF FF F4]. *)
Definition png_negative_length : list byte :=
  signature_bytes ++ bytes_of [255;255;255;244] ++ list_byte_of_string "abcd".

(** ** Definitions for the properties of the whole module *)

(** The type code that ends the scan of [readChunks]. *)
Definition IEND_type : list byte := list_byte_of_string "IEND".

(** What every entry of a returned table satisfies, whatever the bytes. *)
Definition header_in_view (view : DataView) (key : string) (e : PngChunk.t) : Prop :=
  0 <= PngChunk.start e /\
  PngChunk.dataOffset e = PngChunk.start e + 8 /\
  PngChunk.dataOffset e <= byteLength view /\
  - 2 ^ 31 <= PngChunk.size e < 2 ^ 31 /\
  String.length key = 4%nat /\
  key <> "IEND".


(** The register the loop of [calculateCRC] starts from, unsigned. *)
Definition crc_register (previous : Z) : Z :=
  if previous =? 0 then 0 else Z.lxor (wrap32u previous) 0xFFFFFFFF.

(** The chunk [setPhysChunk] builds, as a chunk of the layout: its encoding
    is [pHYs_chunk]. *)
Definition pHYs_written (dpr : number) : Chunk :=
  let dpi := number_mul DPI_96 dpr in
  {| chunk_type := pHYs_type;
     chunk_data := be32 (ToInt32 dpi) ++ be32 (ToInt32 dpi) ++ [byte_of_Z 1];
     chunk_crc := be32 (calculateCRC (pHYs_body dpr) 0) |}.

(** * Properties *)

Import PngHelpers.

(** ** Bytes and 32-bit arithmetic *)

Lemma u8_range (b : byte) : 0 <= u8 b < 256.
Proof.
  unfold u8. pose proof (Byte.to_N_bounded b). lia.
Qed.

Lemma u8_byte_of_Z (z : Z) : u8 (byte_of_Z z) = z mod 256.
Proof.
  unfold u8, byte_of_Z.
  assert (Hr : 0 <= z mod 256 < 256) by (apply Z.mod_pos_bound; lia).
  destruct (Byte.of_N (Z.to_N (z mod 256))) as [b|] eqn:E.
  - apply Byte.to_of_N in E. simpl. rewrite E. lia.
  - apply Byte.of_N_None_iff in E. lia.
Qed.

Lemma byte_of_Z_u8 (b : byte) : byte_of_Z (u8 b) = b.
Proof.
  unfold byte_of_Z. pose proof (u8_range b) as Hr.
  rewrite Z.mod_small by lia. unfold u8.
  rewrite N2Z.id, Byte.of_to_N. reflexivity.
Qed.

Lemma length_be32 (z : Z) : length (be32 z) = 4%nat.
Proof. reflexivity. Qed.

Lemma be_decode_be32 (z : Z) : be_decode (be32 z) = z mod 2 ^ 32.
Proof.
  unfold be_decode, be32; cbn [fold_left].
  rewrite !u8_byte_of_Z, !Z.shiftr_div_pow2 by lia.
  change (2 ^ 24) with (256 * (256 * 256)).
  change (2 ^ 16) with (256 * 256).
  change (2 ^ 8) with 256.
  change (2 ^ 32) with (256 * (256 * (256 * 256))).
  rewrite <- !Z.div_div by lia.
  pose proof (Z.div_mod z 256 ltac:(lia)) as H0.
  pose proof (Z.mod_pos_bound z 256 ltac:(lia)) as B0.
  set (q0 := z / 256) in *.
  pose proof (Z.div_mod q0 256 ltac:(lia)) as H1.
  pose proof (Z.mod_pos_bound q0 256 ltac:(lia)) as B1.
  set (q1 := q0 / 256) in *.
  pose proof (Z.div_mod q1 256 ltac:(lia)) as H2.
  pose proof (Z.mod_pos_bound q1 256 ltac:(lia)) as B2.
  set (q2 := q1 / 256) in *.
  pose proof (Z.div_mod q2 256 ltac:(lia)) as H3.
  pose proof (Z.mod_pos_bound q2 256 ltac:(lia)) as B3.
  apply Z.mod_unique with (q := q2 / 256); lia.
Qed.

Lemma wrap32u_small (z : Z) : 0 <= z < 2 ^ 32 -> wrap32u z = z.
Proof. intros H. unfold wrap32u. apply Z.mod_small. exact H. Qed.

Lemma wrap32s_small (z : Z) : - 2 ^ 31 <= z < 2 ^ 31 -> wrap32s z = z.
Proof. intros H. unfold wrap32s. rewrite Z.mod_small; lia. Qed.

Lemma wrap32u_wrap32s (z : Z) : wrap32u (wrap32s z) = wrap32u z.
Proof.
  unfold wrap32u, wrap32s.
  pose proof (Z.div_mod (z + 2 ^ 31) (2 ^ 32) ltac:(lia)) as H.
  replace ((z + 2 ^ 31) mod 2 ^ 32 - 2 ^ 31)
    with (z + (- ((z + 2 ^ 31) / 2 ^ 32)) * 2 ^ 32) by lia.
  apply Z.mod_add. lia.
Qed.

(** ** Reading through a view of a whole buffer *)

Section WholeView.
Variables (st : Store) (b : nat).
Let view := new_DataView st b.

Lemma GetViewValue_at (pre bs post : list byte) :
  ArrayBuffer_data st b = pre ++ bs ++ post ->
  GetViewValue st view (Z.of_nat (length pre)) (length bs) = Ok bs.
Proof.
  intros Hd. unfold GetViewValue, view, new_DataView, ArrayBuffer_byteLength; simpl.
  rewrite Hd, !length_app.
  destruct (Z.ltb_spec (Z.of_nat (length pre)) 0) as [?|_]; [lia|].
  destruct (Z.ltb_spec (Z.of_nat (length pre + (length bs + length post)))
              (Z.of_nat (length pre) + Z.of_nat (length bs))) as [?|_]; [lia|].
  rewrite Z.add_0_l, Nat2Z.id, drop_app_length, take_app_length, Nat.eqb_refl.
  reflexivity.
Qed.

Lemma getUint8_at (pre post : list byte) (x : byte) :
  ArrayBuffer_data st b = pre ++ x :: post ->
  getUint8 st view (Z.of_nat (length pre)) = Ok (u8 x).
Proof.
  intros Hd. unfold getUint8.
  pose proof (GetViewValue_at pre [x] post Hd) as H.
  cbn [length] in H. rewrite H. reflexivity.
Qed.

Lemma getUint32_at (pre post : list byte) (z : Z) :
  ArrayBuffer_data st b = pre ++ be32 z ++ post ->
  getUint32 st view (Z.of_nat (length pre)) = Ok (wrap32u z).
Proof.
  intros Hd. unfold getUint32.
  pose proof (GetViewValue_at pre (be32 z) post Hd) as H.
  rewrite length_be32 in H. rewrite H. cbn [bind].
  rewrite be_decode_be32. reflexivity.
Qed.

Lemma getInt32_at (pre post : list byte) (z : Z) :
  0 <= z < 2 ^ 31 ->
  ArrayBuffer_data st b = pre ++ be32 z ++ post ->
  getInt32 st view (Z.of_nat (length pre)) = Ok z.
Proof.
  intros Hz Hd. unfold getInt32.
  pose proof (GetViewValue_at pre (be32 z) post Hd) as H.
  rewrite length_be32 in H. rewrite H. cbn [bind].
  rewrite be_decode_be32, Z.mod_small, wrap32s_small by lia. reflexivity.
Qed.

Lemma getChunkType_at (pre post type : list byte) :
  length type = 4%nat ->
  ArrayBuffer_data st b = pre ++ type ++ post ->
  getChunkType st view (Z.of_nat (length pre))
  = Ok (join (map (fun x => fromCharCode (u8 x)) type)).
Proof.
  intros Hl Hd.
  destruct type as [|t0 [|t1 [|t2 [|t3 [|? ?]]]]]; try discriminate Hl.
  unfold getChunkType; cbn [Array_from].
  rewrite Z.add_0_r, (getUint8_at pre ([t1; t2; t3] ++ post) t0) by exact Hd.
  cbn [bind].
  replace (Z.of_nat (length pre) + (0 + 1))
    with (Z.of_nat (length (pre ++ [t0]))) by (rewrite length_app; simpl; lia).
  rewrite (getUint8_at (pre ++ [t0]) ([t2; t3] ++ post) t1)
    by (rewrite Hd, <- app_assoc; reflexivity).
  cbn [bind].
  replace (Z.of_nat (length pre) + (0 + 1 + 1))
    with (Z.of_nat (length (pre ++ [t0; t1]))) by (rewrite length_app; simpl; lia).
  rewrite (getUint8_at (pre ++ [t0; t1]) ([t3] ++ post) t2)
    by (rewrite Hd, <- app_assoc; reflexivity).
  cbn [bind].
  replace (Z.of_nat (length pre) + (0 + 1 + 1 + 1))
    with (Z.of_nat (length (pre ++ [t0; t1; t2]))) by (rewrite length_app; simpl; lia).
  rewrite (getUint8_at (pre ++ [t0; t1; t2]) post t3)
    by (rewrite Hd, <- app_assoc; reflexivity).
  reflexivity.
Qed.
End WholeView.

(** ** isPng *)

Lemma Array_every_true (callback : Z -> Z -> result bool) (array : list Z) :
  forall index,
    Array_every callback index array = Ok true <->
    (forall k, (k < length array)%nat ->
               callback (nth k array 0) (index + Z.of_nat k) = Ok true).
Proof.
  induction array as [|element rest IH]; intros index; cbn [Array_every length].
  - split; [intros _ k Hk; lia | reflexivity].
  - split.
    + intros H k Hk.
      destruct (callback element index) as [[|]| |] eqn:E; try discriminate H.
      destruct k as [|k]; cbn [nth].
      * rewrite Z.add_0_r. exact E.
      * replace (index + Z.of_nat (S k)) with (index + 1 + Z.of_nat k) by lia.
        apply (proj1 (IH (index + 1)) H). lia.
    + intros H.
      pose proof (H 0%nat ltac:(lia)) as H0. cbn [nth] in H0.
      rewrite Z.add_0_r in H0. rewrite H0. cbn [bind].
      apply IH. intros k Hk.
      replace (index + 1 + Z.of_nat k) with (index + Z.of_nat (S k)) by lia.
      apply (H (S k)). lia.
Qed.

Lemma Array_every_caught (callback : Z -> Z -> result bool) (array : list Z) :
  (forall element index, callback element index <> OutOfFuel) ->
  forall index,
    exists b, try_catch (Array_every callback index array) (fun _ => Ok false) = Ok b.
Proof.
  intros Hcb. induction array as [|element rest IH]; intros index; cbn [Array_every].
  - exists true. reflexivity.
  - destruct (callback element index) as [[|]| |] eqn:E; cbn [bind].
    + apply IH.
    + exists false. reflexivity.
    + exists false. reflexivity.
    + exfalso. exact (Hcb _ _ E).
Qed.

Lemma GetViewValue_fuel st view i n : GetViewValue st view i n <> OutOfFuel.
Proof.
  unfold GetViewValue.
  repeat match goal with |- context [if ?c then _ else _] => destruct c end;
    discriminate.
Qed.

Lemma getUint8_fuel st view i : getUint8 st view i <> OutOfFuel.
Proof.
  unfold getUint8. pose proof (GetViewValue_fuel st view i 1) as H.
  destruct (GetViewValue st view i 1); [discriminate | discriminate | congruence].
Qed.

Lemma getUint8_bounds st view i x :
  getUint8 st view i = Ok x -> 0 <= i /\ i + 1 <= byteLength view.
Proof.
  unfold getUint8, GetViewValue.
  destruct (Z.ltb_spec i 0); [discriminate|].
  destruct (Z.ltb_spec (byteLength view) (i + Z.of_nat 1)); [discriminate|].
  intros _. lia.
Qed.

Lemma isPng_callback st view offset byte index :
  (let! b := getUint8 st view (offset + index) in Ok (b =? byte)) = Ok true <->
  getUint8 st view (offset + index) = Ok byte.
Proof.
  destruct (getUint8 st view (offset + index)) as [x| |]; cbn [bind].
  - split; intros H.
    + injection H as H. apply Z.eqb_eq in H. congruence.
    + injection H as ->. rewrite Z.eqb_refl. reflexivity.
  - split; discriminate.
  - split; discriminate.
Qed.

Lemma isPng_true_iff st view offset :
  isPng st view offset = Ok true <->
  (forall k, (k < 8)%nat ->
             getUint8 st view (offset + Z.of_nat k) = Ok (nth k SIGNATURE 0)).
Proof.
  unfold isPng.
  set (cb := fun byte index => let! b := getUint8 st view (offset + index) in Ok (b =? byte)).
  assert (Hev : try_catch (Array_every cb 0 SIGNATURE) (fun _ => Ok false) = Ok true
                <-> Array_every cb 0 SIGNATURE = Ok true).
  { destruct (Array_every cb 0 SIGNATURE) as [x| |]; cbn [try_catch];
      split; intros H; congruence. }
  rewrite Hev, Array_every_true. change (length SIGNATURE) with 8%nat.
  split; intros H k Hk; specialize (H k Hk); subst cb; cbn beta in *.
  - apply isPng_callback in H. rewrite Z.add_0_l in H. exact H.
  - apply isPng_callback. rewrite Z.add_0_l. exact H.
Qed.

Lemma isPng_returns st view offset : exists b, isPng st view offset = Ok b.
Proof.
  unfold isPng. apply Array_every_caught. intros element index H.
  pose proof (getUint8_fuel st view (offset + index)) as Hf.
  destruct (getUint8 st view (offset + index)); cbn [bind] in H; congruence.
Qed.

Lemma isPng_out_of_bounds st view offset :
  offset < 0 \/ byteLength view < offset + 8 -> isPng st view offset = Ok false.
Proof.
  intros Hoob. destruct (isPng_returns st view offset) as [[|] Hb]; [|exact Hb].
  exfalso. rewrite isPng_true_iff in Hb.
  pose proof (Hb 0%nat ltac:(lia)) as H0. apply getUint8_bounds in H0.
  pose proof (Hb 7%nat ltac:(lia)) as H7. apply getUint8_bounds in H7.
  lia.
Qed.

(** C8. [isPng] never throws: on every store, view and offset it returns a
    boolean; the boolean is [true] exactly when each of the eight reads
    [getUint8(offset + k)] succeeds and yields the k-th signature byte; and it
    is [false] when the eight bytes do not fit in the view, in particular for
    the view of a whole buffer shorter than eight bytes. *)
Theorem isPng_never_throws (st : Store) (view : DataView) (offset : Z) :
  (exists b, isPng st view offset = Ok b) /\
  (isPng st view offset = Ok true <->
   forall k, (k < 8)%nat ->
             getUint8 st view (offset + Z.of_nat k) = Ok (nth k SIGNATURE 0)) /\
  (isPng st view offset <> Ok true -> isPng st view offset = Ok false) /\
  (offset < 0 \/ byteLength view < offset + 8 -> isPng st view offset = Ok false) /\
  (forall b, view = new_DataView st b ->
             (length (ArrayBuffer_data st b) < 8)%nat ->
             isPng st view offset = Ok false).
Proof.
  split; [apply isPng_returns|].
  split; [apply isPng_true_iff|].
  split.
  { intros Hn. destruct (isPng_returns st view offset) as [[|] Hb]; congruence. }
  split; [apply isPng_out_of_bounds|].
  intros b -> Hlen. apply isPng_out_of_bounds.
  unfold new_DataView, ArrayBuffer_byteLength; simpl. lia.
Qed.

Lemma isPng_never_throws_witness :
  isPng [bytes_of [137; 80; 78]] (new_DataView [bytes_of [137; 80; 78]] 0) 0 = Ok false
  /\ isPng [png_plain] (new_DataView [png_plain] 0) 0 = Ok true
  /\ isPng [png_plain] (new_DataView [png_plain] 0) 60 = Ok false.
Proof.
  split; [|split].
  - apply (proj2 (proj2 (proj2 (proj2
             (isPng_never_throws [bytes_of [137; 80; 78]]
                (new_DataView [bytes_of [137; 80; 78]] 0) 0)))) 0%nat).
    + reflexivity.
    + simpl. lia.
  - apply (proj1 (proj2 (isPng_never_throws [png_plain] (new_DataView [png_plain] 0) 0))).
    intros k Hk.
    do 8 (destruct k as [|k]; [reflexivity|]). lia.
  - apply (proj1 (proj2 (proj2 (proj2
             (isPng_never_throws [png_plain] (new_DataView [png_plain] 0) 60))))).
    right. vm_compute. reflexivity.
Defined.

(** ** readChunks on a well-formed file *)

Lemma length_encode_chunk (c : Chunk) :
  wf_chunk c -> Z.of_nat (length (encode_chunk c)) = chunk_span c.
Proof.
  intros (Ht & Hc & _). unfold encode_chunk, chunk_span.
  rewrite !length_app, length_be32, Ht, Hc. lia.
Qed.

Lemma length_flat_encode (cs : list Chunk) :
  Forall wf_chunk cs ->
  Z.of_nat (length (flat_map encode_chunk cs)) = chunks_span cs.
Proof.
  induction 1 as [|c cs Hc _ IH]; [reflexivity|].
  cbn [flat_map chunks_span fold_right]. rewrite length_app, Nat2Z.inj_add.
  rewrite (length_encode_chunk c Hc). unfold chunks_span in IH. lia.
Qed.

Section Layout.
Variables (st : Store) (b : nat).
Let view := new_DataView st b.

Lemma read_chunk_header (pre post : list byte) (c : Chunk) :
  wf_chunk c ->
  ArrayBuffer_data st b = pre ++ encode_chunk c ++ post ->
  getInt32 st view (Z.of_nat (length pre)) = Ok (Z.of_nat (length (chunk_data c)))
  /\ getChunkType st view (Z.of_nat (length pre) + LENGTH_SIZE) = Ok (chunk_name c).
Proof.
  intros (Ht & Hc & Hl) Hd. unfold encode_chunk in Hd.
  rewrite <- !app_assoc in Hd. split.
  - eapply getInt32_at; [lia | exact Hd].
  - replace (Z.of_nat (length pre) + LENGTH_SIZE)
      with (Z.of_nat (length (pre ++ be32 (Z.of_nat (length (chunk_data c))))))
      by (rewrite length_app, length_be32; unfold LENGTH_SIZE; lia).
    unfold chunk_name. eapply getChunkType_at; [exact Ht|].
    rewrite Hd, <- !app_assoc. reflexivity.
Qed.

Lemma readChunks_while_layout (iend : Chunk) (trailing : list byte) :
  wf_chunk iend -> chunk_name iend = "IEND" ->
  forall (cs : list Chunk) (pre : list byte) (table : gmap string PngChunk.t)
         (fuel : nat),
    Forall wf_chunk cs ->
    Forall (fun c => chunk_name c <> "IEND") cs ->
    ArrayBuffer_data st b
    = pre ++ flat_map encode_chunk cs ++ encode_chunk iend ++ trailing ->
    (length cs < fuel)%nat ->
    readChunks_while fuel st view (Z.of_nat (length pre)) table
    = Ok (chunk_table (Z.of_nat (length pre)) cs table).
Proof.
  intros Hwi Hni cs.
  induction cs as [|c rest IH]; intros pre table fuel Hwf Hne Hd Hfuel;
    cbn [length] in Hfuel;
    (destruct fuel as [|fuel]; [lia|]); cbn [readChunks_while chunk_table].
  - cbn [flat_map app] in Hd.
    assert (Hle : (Z.of_nat (length pre) <=? ArrayBuffer_byteLength st (buffer view)) = true).
    { apply Z.leb_le. unfold ArrayBuffer_byteLength, view; simpl.
      rewrite Hd, length_app. lia. }
    rewrite Hle.
    destruct (read_chunk_header pre trailing iend Hwi Hd) as [-> ->].
    cbn [bind]. rewrite Hni. reflexivity.
  - cbn [flat_map] in Hd. rewrite <- app_assoc in Hd.
    apply Forall_cons_1 in Hwf as [Hwc Hwf].
    apply Forall_cons_1 in Hne as [Hnc Hne].
    assert (Hle : (Z.of_nat (length pre) <=? ArrayBuffer_byteLength st (buffer view)) = true).
    { apply Z.leb_le. unfold ArrayBuffer_byteLength, view; simpl.
      rewrite Hd, length_app. lia. }
    rewrite Hle.
    destruct (read_chunk_header pre _ c Hwc Hd) as [-> ->].
    cbn [bind].
    assert (Hnext : Z.of_nat (length pre) + LENGTH_SIZE
                    + (Z.of_nat (length (chunk_data c)) + LENGTH_SIZE + CRC_SIZE)
                    = Z.of_nat (length (pre ++ encode_chunk c))).
    { rewrite length_app, Nat2Z.inj_add, (length_encode_chunk c Hwc).
      unfold chunk_span, LENGTH_SIZE, CRC_SIZE. lia. }
    assert (Hspan : Z.of_nat (length pre) + chunk_span c
                    = Z.of_nat (length (pre ++ encode_chunk c))).
    { rewrite length_app, Nat2Z.inj_add, (length_encode_chunk c Hwc). lia. }
    rewrite Hnext, Hspan.
    assert (Hd' : ArrayBuffer_data st b
                  = (pre ++ encode_chunk c) ++ flat_map encode_chunk rest
                    ++ encode_chunk iend ++ trailing).
    { rewrite Hd, <- app_assoc. reflexivity. }
    destruct (String.eqb_spec (chunk_name c) "IDAT") as [Hidat|Hidat].
    + rewrite Hidat. cbn [andb].
      destruct (bool_decide (is_Some (table !! "IDAT"))).
      * apply IH; [assumption | assumption | exact Hd' | lia].
      * cbn [String.eqb Ascii.eqb Bool.eqb].
        rewrite <- Hidat at 2. unfold chunk_entry.
        replace (Z.of_nat (length pre) + LENGTH_SIZE + 4)
          with (Z.of_nat (length pre) + 8) by (unfold LENGTH_SIZE; lia).
        rewrite Hidat.
        apply IH; [assumption | assumption | exact Hd' | lia].
    + cbn [andb].
      destruct (String.eqb_spec (chunk_name c) "IEND") as [Hiend|_]; [contradiction|].
      unfold chunk_entry.
      replace (Z.of_nat (length pre) + LENGTH_SIZE + 4)
        with (Z.of_nat (length pre) + 8) by (unfold LENGTH_SIZE; lia).
      apply IH; [assumption | assumption | exact Hd' | lia].
Qed.
End Layout.

Lemma isPng_signature (st : Store) (b : nat) (rest : list byte) :
  ArrayBuffer_data st b = signature_bytes ++ rest ->
  isPng st (new_DataView st b) 0 = Ok true.
Proof.
  intros Hd. apply isPng_true_iff. intros k Hk. rewrite Z.add_0_l.
  do 8 (destruct k as [|k];
        [ match goal with
          | |- getUint8 _ _ (Z.of_nat ?n) = _ =>
              exact (getUint8_at st b (take n signature_bytes)
                       (drop (S n) signature_bytes ++ rest)
                       (nth n signature_bytes x00) Hd)
          end | ]).
  lia.
Qed.

Lemma readChunks_valid (st : Store) (b : nat) (chunks : list Chunk) (iend : Chunk)
    (trailing : list byte) (fuel : nat) :
  valid_png chunks iend ->
  ArrayBuffer_data st b = png_bytes chunks iend trailing ->
  (length chunks < fuel)%nat ->
  readChunks fuel st (new_DataView st b) 0 = Ok (chunk_table 8 chunks ∅).
Proof.
  intros [Hwf Hne Hwi Hni _] Hd Hfuel. unfold readChunks.
  rewrite (isPng_signature st b _ Hd). cbn [bind negb].
  change (0 + Z.of_nat (length SIGNATURE)) with (Z.of_nat (length signature_bytes)).
  rewrite (readChunks_while_layout st b iend trailing Hwi Hni chunks signature_bytes ∅ fuel
             Hwf Hne Hd Hfuel).
  reflexivity.
Qed.

Lemma findChunk_valid (st : Store) (b : nat) (chunks : list Chunk) (iend : Chunk)
    (trailing : list byte) (fuel : nat) (type : string) :
  valid_png chunks iend ->
  ArrayBuffer_data st b = png_bytes chunks iend trailing ->
  (length chunks < fuel)%nat ->
  findChunk fuel st (new_DataView st b) type = Ok (chunk_table 8 chunks ∅ !! type).
Proof.
  intros Hv Hd Hfuel. unfold findChunk.
  rewrite (readChunks_valid st b chunks iend trailing fuel Hv Hd Hfuel).
  reflexivity.
Qed.

(** ** The chunk table of a chunk sequence *)

Lemma chunks_span_app (l1 l2 : list Chunk) :
  chunks_span (l1 ++ l2) = chunks_span l1 + chunks_span l2.
Proof.
  unfold chunks_span. induction l1 as [|c l1 IH]; cbn [app fold_right]; lia.
Qed.

Lemma chunk_table_app (l1 l2 : list Chunk) :
  forall offset table,
    chunk_table offset (l1 ++ l2) table
    = chunk_table (offset + chunks_span l1) l2 (chunk_table offset l1 table).
Proof.
  induction l1 as [|c l1 IH]; intros offset table; cbn [app chunk_table].
  - unfold chunks_span; cbn [fold_right]. rewrite Z.add_0_r. reflexivity.
  - rewrite IH. f_equal. unfold chunks_span; cbn [fold_right]. lia.
Qed.

Lemma chunk_table_absent (type : string) (cs : list Chunk) :
  Forall (fun c => chunk_name c <> type) cs ->
  forall offset table, chunk_table offset cs table !! type = table !! type.
Proof.
  induction 1 as [|c cs Hc _ IH]; intros offset table; cbn [chunk_table].
  - reflexivity.
  - rewrite IH.
    destruct ((chunk_name c =? "IDAT")%string && bool_decide (is_Some (table !! "IDAT")));
      [reflexivity|].
    apply lookup_insert_ne. exact Hc.
Qed.

Lemma chunk_table_IDAT_kept (cs : list Chunk) (entry : PngChunk.t) :
  forall offset table,
    table !! "IDAT" = Some entry ->
    chunk_table offset cs table !! "IDAT" = Some entry.
Proof.
  induction cs as [|c cs IH]; intros offset table Ht; cbn [chunk_table].
  - exact Ht.
  - apply IH.
    destruct (String.eqb_spec (chunk_name c) "IDAT") as [Hc|Hc]; cbn [andb].
    + rewrite bool_decide_true by (rewrite Ht; eauto). exact Ht.
    + rewrite lookup_insert_ne by exact Hc. exact Ht.
Qed.

Lemma chunk_table_first_IDAT (pre rest : list Chunk) (c : Chunk) (offset : Z)
    (table : gmap string PngChunk.t) :
  chunk_name c = "IDAT" ->
  Forall (fun x => chunk_name x <> "IDAT") pre ->
  table !! "IDAT" = None ->
  chunk_table offset (pre ++ c :: rest) table !! "IDAT"
  = Some (chunk_entry (offset + chunks_span pre) c).
Proof.
  intros Hc Hpre Ht. rewrite chunk_table_app. cbn [chunk_table].
  apply chunk_table_IDAT_kept.
  rewrite Hc. cbn [String.eqb Ascii.eqb Bool.eqb andb].
  rewrite bool_decide_false.
  - apply lookup_insert_eq.
  - rewrite (chunk_table_absent "IDAT" pre Hpre), Ht. intros [? ?]; discriminate.
Qed.

Lemma chunk_table_last_wins (pre rest : list Chunk) (c : Chunk) (offset : Z)
    (table : gmap string PngChunk.t) :
  chunk_name c <> "IDAT" ->
  Forall (fun x => chunk_name x <> chunk_name c) rest ->
  chunk_table offset (pre ++ c :: rest) table !! chunk_name c
  = Some (chunk_entry (offset + chunks_span pre) c).
Proof.
  intros Hc Hrest. rewrite chunk_table_app. cbn [chunk_table].
  rewrite (chunk_table_absent (chunk_name c) rest Hrest).
  destruct (String.eqb_spec (chunk_name c) "IDAT") as [?|_]; [contradiction|].
  cbn [andb]. apply lookup_insert_eq.
Qed.

(** C5. On a well-formed file with (at least) two [IDAT] chunks [readChunks]
    returns a table instead of throwing; its [IDAT] entry is the first
    occurrence's [start], [dataOffset = start + 8] and data length; and every
    chunk of another type, those behind the repeated [IDAT] included, is
    recorded at its true offset (its last occurrence), so the repeated
    [IDAT] chunks are stepped over by exactly their 12 + length bytes. *)
Theorem readChunks_duplicate_IDAT (st : Store) (b : nat)
    (pre mid post : list Chunk) (first second iend : Chunk)
    (trailing : list byte) (fuel : nat) :
  let chunks := pre ++ first :: mid ++ second :: post in
  valid_png chunks iend ->
  chunk_name first = "IDAT" ->
  chunk_name second = "IDAT" ->
  Forall (fun c => chunk_name c <> "IDAT") pre ->
  ArrayBuffer_data st b = png_bytes chunks iend trailing ->
  (length chunks < fuel)%nat ->
  exists table,
    readChunks fuel st (new_DataView st b) 0 = Ok table /\
    table !! "IDAT" = Some (chunk_entry (8 + chunks_span pre) first) /\
    table !! "IEND" = None /\
    (forall l1 c l2,
        chunks = l1 ++ c :: l2 ->
        chunk_name c <> "IDAT" ->
        Forall (fun x => chunk_name x <> chunk_name c) l2 ->
        table !! chunk_name c = Some (chunk_entry (8 + chunks_span l1) c)).
Proof.
  intros chunks Hv Hf Hs Hpre Hd Hfuel.
  exists (chunk_table 8 chunks ∅). split; [|split; [|split]].
  - exact (readChunks_valid st b chunks iend trailing fuel Hv Hd Hfuel).
  - subst chunks. apply chunk_table_first_IDAT; [exact Hf | exact Hpre | apply lookup_empty].
  - rewrite (chunk_table_absent "IEND" chunks (valid_no_early_iend _ _ Hv)).
    apply lookup_empty.
  - intros l1 c l2 Heq Hc Hl2. rewrite Heq.
    apply chunk_table_last_wins; assumption.
Qed.

Ltac solve_valid_png :=
  constructor;
  [ repeat constructor; cbn; lia
  | repeat constructor; vm_compute; discriminate
  | repeat constructor; cbn; lia
  | reflexivity
  | reflexivity ].

Lemma readChunks_duplicate_IDAT_witness :
  exists table,
    readChunks 5 [png_two_idat] (new_DataView [png_two_idat] 0) 0 = Ok table /\
    table !! "IDAT"
    = Some {| PngChunk.start := 33; PngChunk.dataOffset := 41; PngChunk.size := 5 |} /\
    table !! "tEXt"
    = Some {| PngChunk.start := 67; PngChunk.dataOffset := 75; PngChunk.size := 3 |}.
Proof.
  destruct (readChunks_duplicate_IDAT [png_two_idat] 0%nat
              [IHDR_1x1] [] [tEXt_note] IDAT_1x1_a IDAT_1x1_b IEND [] 5%nat)
    as (table & Hr & Hidat & _ & Hother).
  - solve_valid_png.
  - reflexivity.
  - reflexivity.
  - repeat constructor. vm_compute. discriminate.
  - reflexivity.
  - cbn. lia.
  - exists table. split; [exact Hr|]. split; [exact Hidat|].
    apply (Hother [IHDR_1x1; IDAT_1x1_a; IDAT_1x1_b] tEXt_note []).
    + reflexivity.
    + vm_compute. discriminate.
    + constructor.
Defined.

(** ** findChunk *)

Lemma getUint8_whole_inv (st : Store) (b : nat) (i x : Z) :
  getUint8 st (new_DataView st b) i = Ok x ->
  exists y, ArrayBuffer_data st b !! Z.to_nat i = Some y /\ u8 y = x.
Proof.
  unfold getUint8, GetViewValue, new_DataView; cbn [byteOffset byteLength buffer].
  destruct (i <? 0); [discriminate|].
  destruct (_ <? _); [discriminate|].
  rewrite Z.add_0_l.
  destruct (drop (Z.to_nat i) (ArrayBuffer_data st b)) as [|y rest] eqn:E;
    [discriminate|].
  cbn. intros H. injection H as H. exists y. split.
  - rewrite <- (Nat.add_0_r (Z.to_nat i)), <- lookup_drop, E. reflexivity.
  - rewrite <- H. unfold be_decode; cbn. reflexivity.
Qed.

Lemma isPng_true_signature (st : Store) (b : nat) :
  isPng st (new_DataView st b) 0 = Ok true ->
  take 8 (ArrayBuffer_data st b) = signature_bytes.
Proof.
  intros H. rewrite isPng_true_iff in H.
  assert (Hk : forall k, (k < 8)%nat ->
             ArrayBuffer_data st b !! k = Some (byte_of_Z (nth k SIGNATURE 0))).
  { intros k Hk. specialize (H k Hk). rewrite Z.add_0_l in H.
    apply getUint8_whole_inv in H as (y & Hy & Hu).
    rewrite Nat2Z.id in Hy. rewrite Hy, <- Hu, byte_of_Z_u8. reflexivity. }
  pose proof (Hk 0%nat ltac:(lia)) as H0. pose proof (Hk 1%nat ltac:(lia)) as H1.
  pose proof (Hk 2%nat ltac:(lia)) as H2. pose proof (Hk 3%nat ltac:(lia)) as H3.
  pose proof (Hk 4%nat ltac:(lia)) as H4. pose proof (Hk 5%nat ltac:(lia)) as H5.
  pose proof (Hk 6%nat ltac:(lia)) as H6. pose proof (Hk 7%nat ltac:(lia)) as H7.
  destruct (ArrayBuffer_data st b) as [|y0 [|y1 [|y2 [|y3 [|y4 [|y5 [|y6 [|y7 rest]]]]]]]];
    try discriminate.
  cbn in H0, H1, H2, H3, H4, H5, H6, H7.
  injection H0 as ->. injection H1 as ->. injection H2 as ->. injection H3 as ->.
  injection H4 as ->. injection H5 as ->. injection H6 as ->. injection H7 as ->.
  reflexivity.
Qed.

Lemma readChunks_bad_signature (fuel : nat) (st : Store) (view : DataView) (offset : Z) :
  isPng st view offset <> Ok true ->
  readChunks fuel st view offset = Throw (Error "Failed to read PNG chunks").
Proof.
  intros Hn. unfold readChunks.
  destruct (isPng_returns st view offset) as [[|] Hb]; [congruence|].
  rewrite Hb. reflexivity.
Qed.

(** C10. [findChunk] answers "absent" only on input that parses: on every
    buffer whose first eight bytes are not the PNG signature it throws, for
    every requested type and any iteration bound; on a well-formed file
    that has no chunk of the requested four-character type it returns
    [undefined] without throwing. *)
Theorem findChunk_absent_or_throws :
  (forall (fuel : nat) (st : Store) (b : nat) (type : string),
      take 8 (ArrayBuffer_data st b) <> signature_bytes ->
      findChunk fuel st (new_DataView st b) type
      = Throw (Error ("Failed to find chunk: " +:+ type)))
  /\
  (forall (fuel : nat) (st : Store) (b : nat) (chunks : list Chunk) (iend : Chunk)
          (trailing : list byte) (type : string),
      valid_png chunks iend ->
      ArrayBuffer_data st b = png_bytes chunks iend trailing ->
      (length chunks < fuel)%nat ->
      String.length type = 4%nat ->
      Forall (fun c => chunk_name c <> type) chunks ->
      findChunk fuel st (new_DataView st b) type = Ok None).
Proof.
  split.
  - intros fuel st b type Hsig. unfold findChunk.
    rewrite readChunks_bad_signature; [reflexivity|].
    intros H. apply Hsig. exact (isPng_true_signature st b H).
  - intros fuel st b chunks iend trailing type Hv Hd Hfuel _ Habs.
    rewrite (findChunk_valid st b chunks iend trailing fuel type Hv Hd Hfuel).
    rewrite (chunk_table_absent type chunks Habs), lookup_empty. reflexivity.
Qed.

Lemma findChunk_absent_or_throws_witness :
  findChunk 3 [bytes_of [71; 73; 70; 56; 57; 97; 1; 0; 1; 0]]
    (new_DataView [bytes_of [71; 73; 70; 56; 57; 97; 1; 0; 1; 0]] 0) "pHYs"
  = Throw (Error "Failed to find chunk: pHYs")
  /\ findChunk 3 [png_plain] (new_DataView [png_plain] 0) "pHYs" = Ok None.
Proof.
  split.
  - apply (proj1 findChunk_absent_or_throws). vm_compute. discriminate.
  - apply (proj2 findChunk_absent_or_throws 3%nat [png_plain] 0%nat
             [IHDR_1x1; IDAT_1x1] IEND [] "pHYs").
    + solve_valid_png.
    + reflexivity.
    + cbn. lia.
    + reflexivity.
    + repeat constructor; vm_compute; discriminate.
Defined.

(** ** readChunks on a negative length field *)

Section NegativeLength.
Let st : Store := [png_negative_length].
Let view : DataView := new_DataView st 0.
Let entry : PngChunk.t :=
  {| PngChunk.start := 8; PngChunk.dataOffset := 8 + LENGTH_SIZE + 4;
     PngChunk.size := -12 |}.

Lemma negative_length_read : getInt32 st view 8 = Ok (-12).
Proof. vm_compute. reflexivity. Qed.

Lemma negative_length_type : getChunkType st view (8 + LENGTH_SIZE) = Ok "abcd".
Proof. vm_compute. reflexivity. Qed.

(** One iteration from offset 8 comes back to offset 8. *)
Lemma negative_length_step (fuel : nat) (chunks : gmap string PngChunk.t) :
  readChunks_while (S fuel) st view 8 chunks
  = readChunks_while fuel st view 8 (<["abcd" := entry]> chunks).
Proof.
  cbn [readChunks_while].
  change (8 <=? ArrayBuffer_byteLength st (buffer view)) with true. cbn iota.
  rewrite negative_length_read. cbn [bind].
  rewrite negative_length_type. cbn [bind].
  reflexivity.
Qed.

Lemma negative_length_cycle (fuel : nat) :
  readChunks_while fuel st view 8 (<["abcd" := entry]> ∅) = OutOfFuel.
Proof.
  induction fuel as [|fuel IH]; [reflexivity|].
  rewrite negative_length_step, insert_insert_eq. exact IH.
Qed.

Lemma negative_length_diverges (fuel : nat) :
  readChunks fuel st view 0 = OutOfFuel.
Proof.
  unfold readChunks.
  replace (isPng st view 0) with (Ok (A := bool) true) by (vm_compute; reflexivity).
  cbn [bind negb].
  change (0 + Z.of_nat (length SIGNATURE)) with 8.
  destruct fuel as [|fuel]; [reflexivity|].
  rewrite negative_length_step, negative_length_cycle. reflexivity.
Qed.
End NegativeLength.

(** C7, at the failing input.  The 16-byte buffer made of the signature, the
    length field [FF FF FF F4] and the type code [abcd] keeps [readChunks] in
    its loop for ever: [getInt32] reads the length as -12, so the position
    after the iteration is again 8, and no number of iterations yields a
    table or an exception. *)
Theorem readChunks_negative_length_never_returns :
  forall fuel : nat,
    readChunks fuel [png_negative_length] (new_DataView [png_negative_length] 0) 0
    = OutOfFuel.
Proof. exact negative_length_diverges. Qed.

(** ** The store under allocation and writes *)

Lemma ArrayBuffer_data_old (st ext : Store) (i : nat) :
  (i < length st)%nat -> ArrayBuffer_data (st ++ ext) i = ArrayBuffer_data st i.
Proof.
  intros H. unfold ArrayBuffer_data. rewrite lookup_app_l by exact H. reflexivity.
Qed.

Lemma ArrayBuffer_data_at (st ext : Store) (k : nat) (data : list byte) :
  ext !! k = Some data -> ArrayBuffer_data (st ++ ext) (length st + k) = data.
Proof.
  intros H. unfold ArrayBuffer_data. rewrite lookup_app_r by lia.
  replace (length st + k - length st)%nat with k by lia.
  rewrite H. reflexivity.
Qed.

Lemma ArrayBuffer_data_fresh (st rest : Store) (data : list byte) :
  ArrayBuffer_data (st ++ data :: rest) (length st) = data.
Proof.
  pose proof (ArrayBuffer_data_at st (data :: rest) 0%nat data eq_refl) as H.
  rewrite Nat.add_0_r in H. exact H.
Qed.

Lemma new_DataView_fresh (st : Store) (data : list byte) (rest : Store) :
  new_DataView (st ++ data :: rest) (length st)
  = mkDataView (length st) 0 (Z.of_nat (length data)).
Proof.
  unfold new_DataView, ArrayBuffer_byteLength.
  rewrite ArrayBuffer_data_fresh. reflexivity.
Qed.

(** A write through the view of the buffer allocated right after [st]
    changes that buffer only. *)
Lemma SetViewValue_fresh (st rest : Store) (data bytes : list byte) (i len : Z) :
  len = Z.of_nat (length data) ->
  0 <= i -> i + Z.of_nat (length bytes) <= len ->
  SetViewValue (mkDataView (length st) 0 len) i bytes (st ++ data :: rest)
  = (Ok (),
     st ++ (take (Z.to_nat i) data ++ bytes
            ++ drop (Z.to_nat i + length bytes) data) :: rest).
Proof.
  intros -> Hi Hl. unfold SetViewValue; cbn [buffer byteOffset byteLength].
  rewrite ArrayBuffer_data_fresh.
  destruct (Z.ltb_spec i 0); [lia|].
  destruct (Z.ltb_spec (Z.of_nat (length data)) (i + Z.of_nat (length bytes))); [lia|].
  rewrite Z.add_0_l.
  destruct (Nat.leb_spec (Z.to_nat i + length bytes) (length data)); [|lia].
  f_equal. rewrite insert_app_r_alt by lia. rewrite Nat.sub_diag. reflexivity.
Qed.

Lemma slice_bytes_range (data : list byte) (b e : Z) :
  0 <= b <= e -> e <= Z.of_nat (length data) ->
  slice_bytes data b (Some e) = take (Z.to_nat (e - b)) (drop (Z.to_nat b) data).
Proof.
  intros Hb He. unfold slice_bytes.
  destruct (Z.ltb_spec b 0); [lia|]. destruct (Z.ltb_spec e 0); [lia|].
  rewrite !Z.min_l, Z.max_l by lia. reflexivity.
Qed.

Lemma slice_bytes_prefix (data : list byte) (e : Z) :
  0 <= e -> slice_bytes data 0 (Some e) = take (Z.to_nat e) data.
Proof.
  intros He. unfold slice_bytes.
  change (0 <? 0) with false. cbn iota.
  destruct (Z.ltb_spec e 0); [lia|].
  rewrite (Z.min_l 0) by lia. rewrite Z.sub_0_r.
  change (Z.to_nat 0) with 0%nat. cbn [drop].
  destruct (Z.le_ge_cases e (Z.of_nat (length data))).
  - rewrite Z.min_l, Z.max_l by lia. reflexivity.
  - rewrite Z.min_r, Z.max_l, Nat2Z.id by lia.
    rewrite (take_ge data (Z.to_nat e)) by lia. apply take_ge. lia.
Qed.

Lemma slice_bytes_suffix (data : list byte) (b : Z) :
  0 <= b -> slice_bytes data b None = drop (Z.to_nat b) data.
Proof.
  intros Hb. unfold slice_bytes.
  destruct (Z.ltb_spec b 0); [lia|].
  destruct (Z.le_ge_cases b (Z.of_nat (length data))).
  - rewrite Z.min_l, Z.max_l by lia. apply take_ge. rewrite length_drop. lia.
  - rewrite Z.min_r, Z.sub_diag by lia. cbn [Z.max Z.compare Z.to_nat take].
    symmetry. apply drop_ge. lia.
Qed.

Lemma be32_wrap32s (z : Z) : be32 (wrap32s z) = be32 z.
Proof.
  assert (H : forall k, 0 <= k <= 24 ->
            byte_of_Z (Z.shiftr (wrap32s z) k) = byte_of_Z (Z.shiftr z k)).
  { intros k Hk. unfold byte_of_Z. do 3 f_equal.
    unfold wrap32s. rewrite !Z.shiftr_div_pow2 by lia.
    pose proof (Z.div_mod (z + 2 ^ 31) (2 ^ 32) ltac:(lia)) as Hd.
    replace ((z + 2 ^ 31) mod 2 ^ 32 - 2 ^ 31)
      with (z + (- ((z + 2 ^ 31) / 2 ^ 32) * 2 ^ (32 - k)) * 2 ^ k).
    2:{ rewrite <- Z.mul_assoc, <- Z.pow_add_r by lia.
        replace (32 - k + k) with 32 by lia. lia. }
    rewrite Z.div_add by (apply Z.pow_nonzero; lia).
    replace (2 ^ (32 - k)) with (2 ^ (24 - k) * 256).
    2:{ change 256 with (2 ^ 8). rewrite <- Z.pow_add_r by lia. f_equal. lia. }
    rewrite Z.mul_assoc. apply Z.mod_add. lia. }
  unfold be32. rewrite !H by lia.
  f_equal. f_equal. f_equal. f_equal.
  rewrite <- (Z.shiftr_0_r (wrap32s z)), <- (Z.shiftr_0_r z) at 1. apply H. lia.
Qed.

Lemma be32_ToInt32_Int (z : Z) : be32 (ToInt32 (Int z)) = be32 z.
Proof.
  unfold ToInt32, Int, truncate. cbn [Z.leb Z.compare].
  rewrite Z.pow_0_r, Z.mul_1_r. apply be32_wrap32s.
Qed.

(** ** setPhysChunk, run on a store *)

Ltac eval_to_nat :=
  repeat match goal with
         | |- context [Z.to_nat ?z] =>
             let n := eval vm_compute in (Z.to_nat z) in
             change (Z.to_nat z) with n
         end.

Ltac write_fresh :=
  rewrite SetViewValue_fresh by (first [reflexivity | cbn [length be32]; lia]);
  eval_to_nat;
  cbn [take drop app length be32 Nat.add].

(** Once both lookups have answered, the method allocates four buffers (the
    chunk, the 13 bytes under the checksum and the two slices) and returns
    the blob spliced at [splice_range]. *)
Lemma setPhysChunk_run (fuel : nat) (st : Store) (view : DataView) (dpr : number)
    (options : option BlobPropertyBag) (phys idat : option PngChunk.t) :
  findChunk fuel st view "pHYs" = Ok phys ->
  findChunk fuel st view "IDAT" = Ok idat ->
  (buffer view < length st)%nat ->
  setPhysChunk fuel view dpr options st =
  let '(offset, size) := splice_range phys idat in
  let data := ArrayBuffer_data st (buffer view) in
  let startBuffer := slice_bytes data 0 (Some offset) in
  let endBuffer := slice_bytes data (offset + size) None in
  (Ok {| blob_data := startBuffer ++ pHYs_chunk dpr ++ endBuffer;
         blob_options := options |},
   st ++ [pHYs_chunk dpr; pHYs_body dpr; startBuffer; endBuffer]).
Proof.
  intros Hp Hi Hb.
  unfold setPhysChunk, try_catchM.
  unfold bindM at 1, read at 1. rewrite Hp.
  destruct (match phys with
            | Some c => (PngChunk.start c, PngChunk.size c)
            | None => (46, 0)
            end) as [o1 s1] eqn:E1.
  unfold bindM at 1, read at 1. rewrite Hi.
  destruct (match idat with
            | Some c => (PngChunk.start c, 0)
            | None => (o1, s1)
            end) as [offset size] eqn:E2.
  assert (Hs : splice_range phys idat = (offset, size)).
  { unfold splice_range. destruct idat, phys; congruence. }
  rewrite Hs. clear E1 E2 Hs Hp Hi o1 s1.
  (* the new chunk *)
  unfold bindM at 1, new_ArrayBuffer at 1.
  unfold bindM at 1, read at 1.
  rewrite new_DataView_fresh.
  cbn [length replicate].
  unfold setUint32, setInt32, setUint8, setInt8. cbn [for_].
  unfold bindM, ret.
  do 8 write_fresh.
  (* its checksum *)
  unfold ArrayBuffer_slice at 1. rewrite ArrayBuffer_data_fresh.
  rewrite slice_bytes_range by (cbn [length]; lia).
  eval_to_nat. cbn [take drop]. rewrite <- app_assoc. cbn [app].
  rewrite length_app. cbn [length].
  unfold read at 1.
  rewrite (ArrayBuffer_data_at st [_; _] 1%nat _ eq_refl).
  rewrite SetViewValue_fresh by (first [reflexivity | cbn [length be32]; lia]).
  eval_to_nat. rewrite be32_ToInt32_Int.
  cbn [take drop app length be32 Nat.add].
  (* the parts of the blob *)
  unfold ArrayBuffer_slice, new_Blob.
  rewrite <- !app_assoc. cbn [app].
  rewrite !ArrayBuffer_data_old by exact Hb.
  rewrite !length_app. cbn [length map concat].
  rewrite (ArrayBuffer_data_at st [_; _; _; _] 2%nat _ eq_refl).
  rewrite (ArrayBuffer_data_at st [_; _; _; _] 3%nat _ eq_refl).
  rewrite ArrayBuffer_data_fresh, app_nil_r.
  reflexivity.
Qed.

Lemma findChunk_unfold (fuel : nat) (st : Store) (view : DataView) (type : string) :
  findChunk fuel st view type
  = match readChunks fuel st view 0 with
    | Ok chunks => Ok (chunks !! type)
    | Throw _ => Throw (Error ("Failed to find chunk: " +:+ type))
    | OutOfFuel => OutOfFuel
    end.
Proof. unfold findChunk. destruct (readChunks fuel st view 0); reflexivity. Qed.

(** When the file does not parse, nothing is allocated. *)
Lemma setPhysChunk_no_table (fuel : nat) (st : Store) (view : DataView) (dpr : number)
    (options : option BlobPropertyBag) :
  (forall chunks, readChunks fuel st view 0 <> Ok chunks) ->
  setPhysChunk fuel view dpr options st
  = (match readChunks fuel st view 0 with
     | Throw _ => Throw (Error "Failed to set physical dimensions")
     | _ => OutOfFuel
     end, st).
Proof.
  intros Hn. unfold setPhysChunk, try_catchM.
  unfold bindM at 1, read at 1. rewrite findChunk_unfold.
  destruct (readChunks fuel st view 0) as [chunks| |].
  - exfalso. exact (Hn chunks eq_refl).
  - reflexivity.
  - reflexivity.
Qed.

Lemma setPhysChunk_store (fuel : nat) (st : Store) (view : DataView) (dpr : number)
    (options : option BlobPropertyBag) :
  (buffer view < length st)%nat ->
  (snd (setPhysChunk fuel view dpr options st) = st /\
   forall blob, fst (setPhysChunk fuel view dpr options st) <> Ok blob)
  \/
  (exists pHYsData crcData startBuffer endBuffer,
      setPhysChunk fuel view dpr options st
      = (Ok {| blob_data := startBuffer ++ pHYsData ++ endBuffer;
               blob_options := options |},
         st ++ [pHYsData; crcData; startBuffer; endBuffer])).
Proof.
  intros Hb. destruct (readChunks fuel st view 0) as [chunks| |] eqn:Hr.
  - right.
    pose proof (setPhysChunk_run fuel st view dpr options
                  (chunks !! "pHYs") (chunks !! "IDAT")) as Hrun.
    rewrite !findChunk_unfold, Hr in Hrun.
    specialize (Hrun eq_refl eq_refl Hb).
    destruct (splice_range (chunks !! "pHYs") (chunks !! "IDAT")) as [offset size].
    cbv zeta in Hrun. rewrite Hrun. eauto.
  - left. rewrite setPhysChunk_no_table by (rewrite Hr; discriminate).
    rewrite Hr. cbn. split; [reflexivity | intros blob; discriminate].
  - left. rewrite setPhysChunk_no_table by (rewrite Hr; discriminate).
    rewrite Hr. cbn. split; [reflexivity | intros blob; discriminate].
Qed.

(** C9. [setPhysChunk] does not write to its input.  For every store, every
    view of a buffer of that store, every [dpr] and options, the store after
    the call is the store before it followed by freshly allocated buffers:
    the bytes of the viewed buffer, and of every buffer that existed, are
    what they were; and a returned blob is the concatenation of three of the
    fresh buffers. *)
Theorem setPhysChunk_input_untouched (fuel : nat) (st : Store) (view : DataView)
    (dpr : number) (options : option BlobPropertyBag) :
  (buffer view < length st)%nat ->
  let run := setPhysChunk fuel view dpr options st in
  (exists fresh, snd run = st ++ fresh) /\
  ArrayBuffer_data (snd run) (buffer view) = ArrayBuffer_data st (buffer view) /\
  (forall b, (b < length st)%nat -> snd run !! b = st !! b) /\
  (forall blob,
      fst run = Ok blob ->
      exists pHYsData crcData startBuffer endBuffer,
        snd run = st ++ [pHYsData; crcData; startBuffer; endBuffer] /\
        blob_data blob = startBuffer ++ pHYsData ++ endBuffer).
Proof.
  intros Hb run. subst run.
  destruct (setPhysChunk_store fuel st view dpr options Hb)
    as [[Hst Hno] | (p & c & s & e & Hrun)].
  - rewrite Hst. split; [exists []; rewrite app_nil_r; reflexivity|].
    split; [reflexivity|]. split; [reflexivity|].
    intros blob Hblob. exfalso. exact (Hno blob Hblob).
  - rewrite Hrun. cbn [fst snd].
    split; [eauto|].
    split; [apply ArrayBuffer_data_old; exact Hb|].
    split; [intros b Hlt; apply lookup_app_l; exact Hlt|].
    intros blob Hblob. injection Hblob as <-. exists p, c, s, e. split; reflexivity.
Qed.

Lemma setPhysChunk_input_untouched_witness :
  ArrayBuffer_data
    (snd (setPhysChunk 3 (new_DataView [png_plain] 0) (Int 2) None [png_plain])) 0
  = png_plain.
Proof.
  apply (setPhysChunk_input_untouched 3 [png_plain] (new_DataView [png_plain] 0)
           (Int 2) None).
  cbn. lia.
Defined.

(** ** setPhysChunk on a well-formed file *)

Lemma chunks_span_nonneg (cs : list Chunk) : 0 <= chunks_span cs.
Proof.
  induction cs as [|c cs IH]; [reflexivity|].
  change (0 <= chunk_span c + chunks_span cs). unfold chunk_span. lia.
Qed.

Lemma length_pHYs_chunk (dpr : number) : length (pHYs_chunk dpr) = 21%nat.
Proof. reflexivity. Qed.

Lemma allocated_of_data (st : Store) (b : nat) (x : byte) (rest : list byte) :
  ArrayBuffer_data st b = x :: rest -> (b < length st)%nat.
Proof.
  unfold ArrayBuffer_data. intros H.
  destruct (st !! b) as [d|] eqn:E; [|discriminate H].
  eapply lookup_lt_Some. exact E.
Qed.

Lemma setPhysChunk_valid (fuel : nat) (st : Store) (b : nat) (chunks : list Chunk)
    (iend : Chunk) (trailing : list byte) (dpr : number)
    (options : option BlobPropertyBag) :
  valid_png chunks iend ->
  ArrayBuffer_data st b = png_bytes chunks iend trailing ->
  (length chunks < fuel)%nat ->
  setPhysChunk fuel (new_DataView st b) dpr options st =
  let table := chunk_table 8 chunks ∅ in
  let '(offset, size) := splice_range (table !! "pHYs") (table !! "IDAT") in
  let data := png_bytes chunks iend trailing in
  let startBuffer := slice_bytes data 0 (Some offset) in
  let endBuffer := slice_bytes data (offset + size) None in
  (Ok {| blob_data := startBuffer ++ pHYs_chunk dpr ++ endBuffer;
         blob_options := options |},
   st ++ [pHYs_chunk dpr; pHYs_body dpr; startBuffer; endBuffer]).
Proof.
  intros Hv Hd Hfuel.
  rewrite (setPhysChunk_run fuel st (new_DataView st b) dpr options
             (chunk_table 8 chunks ∅ !! "pHYs") (chunk_table 8 chunks ∅ !! "IDAT")).
  - cbn [buffer new_DataView]. rewrite Hd. reflexivity.
  - exact (findChunk_valid st b chunks iend trailing fuel "pHYs" Hv Hd Hfuel).
  - exact (findChunk_valid st b chunks iend trailing fuel "IDAT" Hv Hd Hfuel).
  - cbn [buffer new_DataView]. eapply allocated_of_data. rewrite Hd. reflexivity.
Qed.

(** Whenever the file has an [IDAT] chunk the new chunk goes in front of the
    first one and nothing is removed, with or without a [pHYs] chunk. *)
Lemma setPhysChunk_before_IDAT (fuel : nat) (st : Store) (b : nat)
    (pre rest : list Chunk) (idat iend : Chunk) (trailing : list byte)
    (dpr : number) (options : option BlobPropertyBag) :
  let chunks := pre ++ idat :: rest in
  let data := png_bytes chunks iend trailing in
  let start := Z.to_nat (8 + chunks_span pre) in
  valid_png chunks iend ->
  chunk_name idat = "IDAT" ->
  Forall (fun c => chunk_name c <> "IDAT") pre ->
  ArrayBuffer_data st b = data ->
  (length chunks < fuel)%nat ->
  fst (setPhysChunk fuel (new_DataView st b) dpr options st)
  = Ok {| blob_data := take start data ++ pHYs_chunk dpr ++ drop start data;
          blob_options := options |}.
Proof.
  intros chunks data start Hv Hn Hpre Hd Hfuel.
  rewrite (setPhysChunk_valid fuel st b chunks iend trailing dpr options Hv Hd Hfuel).
  cbv zeta. subst chunks.
  rewrite (chunk_table_first_IDAT pre rest idat 8 ∅ Hn Hpre (lookup_empty _)).
  cbn [splice_range chunk_entry PngChunk.start fst].
  pose proof (chunks_span_nonneg pre).
  rewrite slice_bytes_prefix, Z.add_0_r, slice_bytes_suffix by lia.
  reflexivity.
Qed.

Lemma first_IDAT_split (chunks : list Chunk) :
  Forall (fun c => chunk_name c <> "IDAT") chunks \/
  exists pre idat rest,
    chunks = pre ++ idat :: rest /\ chunk_name idat = "IDAT" /\
    Forall (fun c => chunk_name c <> "IDAT") pre.
Proof.
  induction chunks as [|c cs IH].
  - left. constructor.
  - destruct (string_dec (chunk_name c) "IDAT") as [Hc|Hc].
    + right. exists [], c, cs. split; [reflexivity|]. split; [exact Hc | constructor].
    + destruct IH as [Hall | (pre & idat & rest & -> & Hi & Hp)].
      * left. constructor; assumption.
      * right. exists (c :: pre), idat, rest.
        split; [reflexivity|]. split; [exact Hi | constructor; assumption].
Qed.

Lemma length_insert_21 (data : list byte) (n : nat) (dpr : number) :
  length (take n data ++ pHYs_chunk dpr ++ drop n data) = (length data + 21)%nat.
Proof.
  rewrite !length_app, length_pHYs_chunk, length_take, length_drop. lia.
Qed.

(** C6. On a well-formed file without a [pHYs] chunk [setPhysChunk] returns
    the input with exactly the 21 bytes of the new chunk spliced in, so the
    output is 21 bytes longer: the splice is at the start offset of the
    first [IDAT] chunk when there is one, and at the fallback offset 46
    ([slice(0, 46)], new chunk, [slice(46)]) when there is none. *)
Theorem setPhysChunk_inserts_21_bytes (fuel : nat) (st : Store) (b : nat)
    (chunks : list Chunk) (iend : Chunk) (trailing : list byte) (dpr : number)
    (options : option BlobPropertyBag) :
  let data := png_bytes chunks iend trailing in
  valid_png chunks iend ->
  Forall (fun c => chunk_name c <> "pHYs") chunks ->
  ArrayBuffer_data st b = data ->
  (length chunks < fuel)%nat ->
  exists blob,
    fst (setPhysChunk fuel (new_DataView st b) dpr options st) = Ok blob /\
    length (blob_data blob) = (length data + 21)%nat /\
    (forall pre idat rest,
        chunks = pre ++ idat :: rest ->
        chunk_name idat = "IDAT" ->
        Forall (fun c => chunk_name c <> "IDAT") pre ->
        let start := Z.to_nat (8 + chunks_span pre) in
        blob_data blob = take start data ++ pHYs_chunk dpr ++ drop start data) /\
    (Forall (fun c => chunk_name c <> "IDAT") chunks ->
     blob_data blob = take 46 data ++ pHYs_chunk dpr ++ drop 46 data).
Proof.
  intros data Hv Hphys Hd Hfuel.
  pose proof (setPhysChunk_valid fuel st b chunks iend trailing dpr options Hv Hd Hfuel)
    as Hrun.
  cbv zeta in Hrun.
  rewrite (chunk_table_absent "pHYs" chunks Hphys), lookup_empty in Hrun.
  destruct (chunk_table 8 chunks ∅ !! "IDAT") as [entry|] eqn:Hidat;
    cbn [splice_range] in Hrun; rewrite Hrun; cbn [fst];
    eexists; (split; [reflexivity|]); cbn [blob_data].
  - destruct (first_IDAT_split chunks) as [Hall | Hpos].
    { rewrite (chunk_table_absent "IDAT" chunks Hall), lookup_empty in Hidat.
      discriminate. }
    destruct Hpos as (pre0 & idat0 & rest0 & Heq & Hn0 & Hpre0).
    assert (Hentry : entry = chunk_entry (8 + chunks_span pre0) idat0).
    { rewrite Heq in Hidat.
      rewrite (chunk_table_first_IDAT pre0 rest0 idat0 8 ∅ Hn0 Hpre0 (lookup_empty _))
        in Hidat.
      congruence. }
    subst entry. cbn [chunk_entry PngChunk.start].
    pose proof (chunks_span_nonneg pre0).
    rewrite slice_bytes_prefix, Z.add_0_r, slice_bytes_suffix by lia.
    split; [apply length_insert_21|]. split.
    + intros pre idat rest Heq' Hn Hpre.
      rewrite Heq' in Hidat.
      rewrite (chunk_table_first_IDAT pre rest idat 8 ∅ Hn Hpre (lookup_empty _))
        in Hidat.
      apply (f_equal (fun o => match o with
                               | Some e => PngChunk.start e
                               | None => 0
                               end)) in Hidat.
      cbn [chunk_entry PngChunk.start] in Hidat. rewrite Hidat. reflexivity.
    + intros Hall.
      rewrite (chunk_table_absent "IDAT" chunks Hall), lookup_empty in Hidat.
      discriminate.
  - rewrite slice_bytes_prefix, Z.add_0_r, slice_bytes_suffix by lia.
    change (Z.to_nat 46) with 46%nat.
    split; [apply length_insert_21|]. split.
    + intros pre idat rest Heq' Hn Hpre.
      rewrite Heq' in Hidat.
      rewrite (chunk_table_first_IDAT pre rest idat 8 ∅ Hn Hpre (lookup_empty _))
        in Hidat.
      discriminate.
    + intros _. reflexivity.
Qed.

Lemma setPhysChunk_inserts_21_bytes_witness :
  (exists blob,
      fst (setPhysChunk 3 (new_DataView [png_plain] 0) (Int 1) None [png_plain]) = Ok blob
      /\ length (blob_data blob) = (length png_plain + 21)%nat
      /\ blob_data blob = take 33 png_plain ++ pHYs_chunk (Int 1) ++ drop 33 png_plain)
  /\
  (exists blob,
      fst (setPhysChunk 3 (new_DataView [png_header_only] 0) (Int 1) None
             [png_header_only]) = Ok blob
      /\ length (blob_data blob) = (length png_header_only + 21)%nat
      /\ blob_data blob
         = take 46 png_header_only ++ pHYs_chunk (Int 1) ++ drop 46 png_header_only).
Proof.
  split.
  - destruct (setPhysChunk_inserts_21_bytes 3 [png_plain] 0 [IHDR_1x1; IDAT_1x1] IEND []
                (Int 1) None) as (blob & Hrun & Hlen & Hidat & _).
    + solve_valid_png.
    + repeat constructor; vm_compute; discriminate.
    + reflexivity.
    + cbn. lia.
    + exists blob. split; [exact Hrun|]. split; [exact Hlen|].
      apply (Hidat [IHDR_1x1] IDAT_1x1 []).
      * reflexivity.
      * reflexivity.
      * repeat constructor; vm_compute; discriminate.
  - destruct (setPhysChunk_inserts_21_bytes 3 [png_header_only] 0 [IHDR_1x1] IEND []
                (Int 1) None) as (blob & Hrun & Hlen & _ & Hnone).
    + solve_valid_png.
    + repeat constructor; vm_compute; discriminate.
    + reflexivity.
    + cbn. lia.
    + exists blob. split; [exact Hrun|]. split; [exact Hlen|].
      apply Hnone. repeat constructor; vm_compute; discriminate.
Defined.

(** C1, at the failing input.  The sample file with an existing [pHYs] chunk
    is 88 bytes long; [setPhysChunk] with [dpr = 2] returns 109 bytes: the
    new chunk is spliced in front of [IDAT] (offset 54) and the old [pHYs]
    chunk is still at offset 33. *)
Theorem setPhysChunk_keeps_existing_pHYs :
  exists blob,
    fst (setPhysChunk 4 (new_DataView [png_with_phys] 0) (Int 2) None [png_with_phys])
    = Ok blob
    /\ length png_with_phys = 88%nat
    /\ length (blob_data blob) = 109%nat
    /\ blob_data blob
       = take 54 png_with_phys ++ pHYs_chunk (Int 2) ++ drop 54 png_with_phys
    /\ take 21 (drop 33 (blob_data blob)) = encode_chunk pHYs_72dpi.
Proof.
  pose proof (setPhysChunk_before_IDAT 4 [png_with_phys] 0 [IHDR_1x1; pHYs_72dpi] []
                IDAT_1x1 IEND [] (Int 2) None) as Hrun.
  cbv zeta in Hrun. rewrite Hrun.
  - eexists. split; [reflexivity|]. cbn [blob_data].
    split; [reflexivity|]. split; [vm_compute; reflexivity|].
    split; [reflexivity|]. vm_compute. reflexivity.
  - solve_valid_png.
  - reflexivity.
  - repeat constructor; vm_compute; discriminate.
  - reflexivity.
  - cbn. lia.
Qed.

(** Without an [IDAT] chunk the replaced range is the data length of the old
    [pHYs] chunk, 9 bytes, not its 21: the output is 12 bytes longer. *)
Lemma setPhysChunk_replaces_nine_bytes :
  let png := png_bytes [IHDR_1x1; pHYs_72dpi] IEND [] in
  exists blob,
    fst (setPhysChunk 4 (new_DataView [png] 0) (Int 2) None [png]) = Ok blob
    /\ length (blob_data blob) = (length png + 12)%nat
    /\ blob_data blob = take 33 png ++ pHYs_chunk (Int 2) ++ drop (33 + 9) png.
Proof.
  intros png. eexists. split; [vm_compute; reflexivity|].
  split; vm_compute; reflexivity.
Qed.

(** ** parsePhys *)

Lemma parsePhys_reads (st : Store) (b : nat) (pre post : list byte) (x y : Z) :
  ArrayBuffer_data st b = pre ++ be32 x ++ be32 y ++ post ->
  parsePhys st (new_DataView st b) (Z.of_nat (length pre))
  = Ok {| PhysicalDimensions.ppux := wrap32u x;
          PhysicalDimensions.ppuy := wrap32u y;
          PhysicalDimensions.unit := u8 (byte_of_Z (Z.shiftr y 24)) |}.
Proof.
  intros Hd. unfold parsePhys.
  rewrite (getUint32_at st b pre (be32 y ++ post) x Hd). cbn [bind].
  assert (H4 : Z.of_nat (length pre) + 4 = Z.of_nat (length (pre ++ be32 x))).
  { rewrite length_app, length_be32. lia. }
  rewrite H4.
  rewrite (getUint32_at st b (pre ++ be32 x) post y)
    by (rewrite Hd, <- app_assoc; reflexivity).
  cbn [bind].
  rewrite (getUint8_at st b (pre ++ be32 x)
             ([byte_of_Z (Z.shiftr y 16); byte_of_Z (Z.shiftr y 8); byte_of_Z y] ++ post)
             (byte_of_Z (Z.shiftr y 24)))
    by (rewrite Hd, <- app_assoc; reflexivity).
  reflexivity.
Qed.

(** C4, at the failing input.  In the sample file the [pHYs] payload starts
    at offset 41 and its ninth byte, the unit specifier, is 1; [parsePhys]
    reports unit 0, the byte at [offset + 4] (the first byte of ppuy). *)
Theorem parsePhys_unit_from_offset_4 :
  parsePhys [png_with_phys] (new_DataView [png_with_phys] 0) 41
  = Ok {| PhysicalDimensions.ppux := 2835;
          PhysicalDimensions.ppuy := 2835;
          PhysicalDimensions.unit := 0 |}
  /\ getUint8 [png_with_phys] (new_DataView [png_with_phys] 0) (41 + 8) = Ok 1
  /\ getUint8 [png_with_phys] (new_DataView [png_with_phys] 0) (41 + 4) = Ok 0.
Proof. repeat split; vm_compute; reflexivity. Qed.

Lemma GetViewValue_first_byte (st : Store) (view : DataView) (i : Z) (raw : list byte) :
  GetViewValue st view i 4 = Ok raw -> GetViewValue st view i 1 = Ok (take 1 raw).
Proof.
  unfold GetViewValue.
  destruct (Z.ltb_spec i 0); [discriminate|].
  destruct (Z.ltb_spec (byteLength view) (i + Z.of_nat 4)); [discriminate|].
  destruct (Z.ltb_spec (byteLength view) (i + Z.of_nat 1)); [lia|].
  set (tail := drop (Z.to_nat (byteOffset view + i)) (ArrayBuffer_data st (buffer view))).
  destruct (Nat.eqb_spec (length (take 4 tail)) 4) as [H4|]; [|discriminate].
  intros Hraw. injection Hraw as <-.
  destruct tail as [|t0 tail']; [discriminate H4|]. reflexivity.
Qed.

(** The unit [parsePhys] reports is always the top byte of the ppuy it
    reports. *)
Lemma parsePhys_unit_is_top_of_ppuy (st : Store) (view : DataView) (offset : Z)
    (p : PhysicalDimensions.t) :
  parsePhys st view offset = Ok p ->
  PhysicalDimensions.unit p = PhysicalDimensions.ppuy p / 2 ^ 24.
Proof.
  unfold parsePhys, getUint32, getUint8.
  destruct (GetViewValue st view offset 4) as [rx| |]; try discriminate.
  cbn [bind].
  destruct (GetViewValue st view (offset + 4) 4) as [ry| |] eqn:Ey; try discriminate.
  cbn [bind]. rewrite (GetViewValue_first_byte st view (offset + 4) ry Ey).
  cbn [bind try_catch]. intros H. injection H as <-.
  cbn [PhysicalDimensions.unit PhysicalDimensions.ppuy].
  assert (Hlen : length ry = 4%nat).
  { unfold GetViewValue in Ey.
    repeat match type of Ey with
           | context [if ?c then _ else _] => destruct c eqn:?; try discriminate
           end.
    injection Ey as <-. apply Nat.eqb_eq. assumption. }
  destruct ry as [|y0 [|y1 [|y2 [|y3 [|? ?]]]]]; try discriminate Hlen.
  unfold be_decode; cbn [take fold_left].
  pose proof (u8_range y0). pose proof (u8_range y1).
  pose proof (u8_range y2). pose proof (u8_range y3).
  apply Z.div_unique with (r := (u8 y1 * 256 + u8 y2) * 256 + u8 y3); lia.
Qed.

(** ** The pHYs round trip *)

Lemma pHYs_chunk_layout (dpr : number) :
  pHYs_chunk dpr
  = (be32 9 ++ pHYs_type)
    ++ be32 (ToInt32 (number_mul DPI_96 dpr))
    ++ be32 (ToInt32 (number_mul DPI_96 dpr))
    ++ [byte_of_Z 1] ++ be32 (calculateCRC (pHYs_body dpr) 0).
Proof. reflexivity. Qed.

Lemma wrap32u_ToInt32 (x : number) : wrap32u (ToInt32 x) = ToUint32 x.
Proof. unfold ToInt32, ToUint32. apply wrap32u_wrap32s. Qed.

(** Reading back the chunk written at position [length pre] of a buffer. *)
Lemma parsePhys_written (st : Store) (b : nat) (pre post : list byte) (dpr : number) :
  ArrayBuffer_data st b = pre ++ pHYs_chunk dpr ++ post ->
  let view := new_DataView st b in
  let dpi := number_mul DPI_96 dpr in
  parsePhys st view (Z.of_nat (length pre) + 8)
  = Ok {| PhysicalDimensions.ppux := ToUint32 dpi;
          PhysicalDimensions.ppuy := ToUint32 dpi;
          PhysicalDimensions.unit := u8 (byte_of_Z (Z.shiftr (ToInt32 dpi) 24)) |}
  /\ getUint8 st view (Z.of_nat (length pre) + 16) = Ok 1.
Proof.
  intros Hd view dpi. rewrite pHYs_chunk_layout in Hd. fold dpi in Hd. split.
  - replace (Z.of_nat (length pre) + 8)
      with (Z.of_nat (length (pre ++ be32 9 ++ pHYs_type)))
      by (rewrite length_app;
          change (length (be32 9 ++ pHYs_type)) with 8%nat; lia).
    subst view.
    rewrite (parsePhys_reads st b (pre ++ be32 9 ++ pHYs_type)
               ([byte_of_Z 1] ++ be32 (calculateCRC (pHYs_body dpr) 0) ++ post)
               (ToInt32 dpi) (ToInt32 dpi))
      by (rewrite Hd, <- !app_assoc; reflexivity).
    rewrite wrap32u_ToInt32. reflexivity.
  - replace (Z.of_nat (length pre) + 16)
      with (Z.of_nat (length (pre ++ (be32 9 ++ pHYs_type)
                                ++ be32 (ToInt32 dpi) ++ be32 (ToInt32 dpi))))
      by (rewrite length_app;
          change (length ((be32 9 ++ pHYs_type)
                            ++ be32 (ToInt32 dpi) ++ be32 (ToInt32 dpi))) with 16%nat;
          lia).
    subst view.
    rewrite (getUint8_at st b (pre ++ (be32 9 ++ pHYs_type)
                                 ++ be32 (ToInt32 dpi) ++ be32 (ToInt32 dpi))
               (be32 (calculateCRC (pHYs_body dpr) 0) ++ post) (byte_of_Z 1))
      by (rewrite Hd, <- !app_assoc; reflexivity).
    reflexivity.
Qed.

(** C3, as amended.  On a well-formed file, for every [dpr], [setPhysChunk]
    returns a blob in which the new chunk sits between a prefix and a suffix
    of the input; parsing its payload (8 bytes into the chunk) with
    [parsePhys] succeeds with [ppux = ppuy =] the integer part of
    [2835.5 * dpr] modulo [2^32] (truncated, not rounded), and the ninth
    payload byte that was written is 1. *)
Theorem pHYs_roundtrip_truncates (fuel : nat) (st : Store) (b : nat)
    (chunks : list Chunk) (iend : Chunk) (trailing : list byte) (dpr : number)
    (options : option BlobPropertyBag) :
  valid_png chunks iend ->
  ArrayBuffer_data st b = png_bytes chunks iend trailing ->
  (length chunks < fuel)%nat ->
  exists blob pre post,
    fst (setPhysChunk fuel (new_DataView st b) dpr options st) = Ok blob /\
    blob_data blob = pre ++ pHYs_chunk dpr ++ post /\
    forall st' b',
      ArrayBuffer_data st' b' = blob_data blob ->
      exists p,
        parsePhys st' (new_DataView st' b') (Z.of_nat (length pre) + 8) = Ok p /\
        PhysicalDimensions.ppux p = wrap32u (truncate (number_mul DPI_96 dpr)) /\
        PhysicalDimensions.ppuy p = wrap32u (truncate (number_mul DPI_96 dpr)) /\
        getUint8 st' (new_DataView st' b') (Z.of_nat (length pre) + 16) = Ok 1.
Proof.
  intros Hv Hd Hfuel.
  pose proof (setPhysChunk_valid fuel st b chunks iend trailing dpr options Hv Hd Hfuel)
    as Hrun.
  cbv zeta in Hrun.
  destruct (splice_range (chunk_table 8 chunks ∅ !! "pHYs")
              (chunk_table 8 chunks ∅ !! "IDAT")) as [offset size].
  rewrite Hrun. cbn [fst].
  eexists. exists (slice_bytes (png_bytes chunks iend trailing) 0 (Some offset)).
  exists (slice_bytes (png_bytes chunks iend trailing) (offset + size) None).
  split; [reflexivity|]. split; [reflexivity|].
  cbn [blob_data]. intros st' b' Hd'.
  destruct (parsePhys_written st' b' _ _ dpr Hd') as [Hp Hu].
  eexists. split; [exact Hp|]. cbn [PhysicalDimensions.ppux PhysicalDimensions.ppuy].
  split; [reflexivity|]. split; [reflexivity | exact Hu].
Qed.

Lemma pHYs_roundtrip_truncates_witness :
  exists blob pre post,
    fst (setPhysChunk 3 (new_DataView [png_plain] 0) (Finite 3 (-1)) None [png_plain])
    = Ok blob /\
    blob_data blob = pre ++ pHYs_chunk (Finite 3 (-1)) ++ post /\
    forall st' b',
      ArrayBuffer_data st' b' = blob_data blob ->
      exists p,
        parsePhys st' (new_DataView st' b') (Z.of_nat (length pre) + 8) = Ok p /\
        PhysicalDimensions.ppux p = 4253 /\
        PhysicalDimensions.ppuy p = 4253 /\
        getUint8 st' (new_DataView st' b') (Z.of_nat (length pre) + 16) = Ok 1.
Proof.
  apply (pHYs_roundtrip_truncates 3 [png_plain] 0 [IHDR_1x1; IDAT_1x1] IEND []
           (Finite 3 (-1)) None).
  - solve_valid_png.
  - reflexivity.
  - cbn. lia.
Defined.

(** C3 as stated fails at [dpr = 1] on the plain sample file: the chunk is
    written at offset 33, its payload parses to ppux = ppuy = 2835 and
    unit = 0, whereas [round(2835.5)] is 2836 and the claimed unit is 1. *)
Lemma pHYs_roundtrip_counterexample :
  let dpi := number_mul DPI_96 (Int 1) in
  exists blob,
    fst (setPhysChunk 3 (new_DataView [png_plain] 0) (Int 1) None [png_plain]) = Ok blob
    /\ take 21 (drop 33 (blob_data blob)) = pHYs_chunk (Int 1)
    /\ parsePhys [blob_data blob] (new_DataView [blob_data blob] 0) (33 + 8)
       = Ok {| PhysicalDimensions.ppux := 2835;
               PhysicalDimensions.ppuy := 2835;
               PhysicalDimensions.unit := 0 |}
    /\ Math_round dpi = 2836
    /\ parsePhys [blob_data blob] (new_DataView [blob_data blob] 0) (33 + 8)
       <> Ok {| PhysicalDimensions.ppux := Math_round dpi;
                PhysicalDimensions.ppuy := Math_round dpi;
                PhysicalDimensions.unit := 1 |}.
Proof.
  intros dpi. eexists. split; [vm_compute; reflexivity|].
  split; [vm_compute; reflexivity|].
  split; [vm_compute; reflexivity|].
  split; [vm_compute; reflexivity|].
  vm_compute. discriminate.
Qed.

(** ** calculateCRC against the reference checksum *)

(** The table of the source is the table of the reference polynomial. *)
Lemma CRC_TABLE_standard :
  CRC_TABLE
  = map (fun n => wrap32s (Nat.iter 8 crc32_shift (Z.of_nat n))) (seq 0 256).
Proof. vm_compute. reflexivity. Qed.

Lemma crc32_reference_check :
  crc32_reference (list_byte_of_string "123456789") = 0xCBF43926.
Proof. vm_compute. reflexivity. Qed.

(** C2, at failing inputs.  With the default [previous] the register starts
    at 0, not at all ones.  For the 13 bytes of a [pHYs] chunk (type and
    payload for 2835 pixels per metre) [calculateCRC] gives [F0112565] while
    the reference CRC-32 is [009A9C18]; for the empty sequence it gives -1
    while the reference is 0. *)
Theorem calculateCRC_default_differs :
  let body := list_byte_of_string "pHYs" ++ bytes_of [0;0;11;19; 0;0;11;19; 1] in
  wrap32u (calculateCRC body 0) = 0xF0112565
  /\ crc32_reference body = 0x009A9C18
  /\ calculateCRC [] 0 = -1
  /\ crc32_reference [] = 0.
Proof. repeat split; vm_compute; reflexivity. Qed.

(** *** What calculateCRC computes instead

    The table-driven step is the bitwise step of the reference, so with the
    default [previous] the result is the reference algorithm run from a zero
    register; it differs from the reference CRC-32 on every input. *)

Ltac bitwise :=
  apply Z.bits_inj'; intros ? ?;
  repeat first [rewrite Z.lxor_spec | rewrite Z.land_spec | rewrite Z.lor_spec];
  repeat match goal with
         | |- context [Z.testbit ?a ?n] => destruct (Z.testbit a n)
         end;
  reflexivity.

Lemma wrap32u_land (z : Z) : wrap32u z = Z.land z (Z.ones 32).
Proof. unfold wrap32u. rewrite Z.land_ones by lia. reflexivity. Qed.

Lemma wrap32u_range (z : Z) : 0 <= wrap32u z < 2 ^ 32.
Proof. unfold wrap32u. apply Z.mod_pos_bound. lia. Qed.

Lemma wrap32u_lxor (a b : Z) : wrap32u (Z.lxor a b) = Z.lxor (wrap32u a) (wrap32u b).
Proof. rewrite !wrap32u_land. bitwise. Qed.

Lemma wrap32u_js_xor (a b : Z) : wrap32u (js_xor a b) = Z.lxor (wrap32u a) (wrap32u b).
Proof.
  unfold js_xor. rewrite wrap32u_wrap32s, wrap32u_lxor, !wrap32u_wrap32s. reflexivity.
Qed.

Lemma land_255 (z : Z) : Z.land z 255 = z mod 256.
Proof. change 255 with (Z.ones 8). rewrite Z.land_ones by lia. reflexivity. Qed.

Lemma js_and_255 (x : Z) : js_and x 0xff = Z.land (wrap32u x) 255.
Proof.
  unfold js_and. change (wrap32s 255) with 255.
  rewrite !land_255.
  assert (H : wrap32s x mod 256 = wrap32u x mod 256).
  { assert (Hd : (256 | 2 ^ 32)) by (exists (2 ^ 24); reflexivity).
    rewrite <- (Z.mod_mod_divide (wrap32s x) (2 ^ 32) 256 Hd).
    fold (wrap32u (wrap32s x)). rewrite wrap32u_wrap32s. unfold wrap32u.
    rewrite !(Z.mod_mod_divide _ (2 ^ 32) 256 Hd). reflexivity. }
  rewrite H. apply wrap32s_small.
  pose proof (Z.mod_pos_bound (wrap32u x) 256 ltac:(lia)). lia.
Qed.

Lemma crc32_shift_lxor (a b : Z) :
  crc32_shift (Z.lxor a b) = Z.lxor (crc32_shift a) (crc32_shift b).
Proof.
  unfold crc32_shift. rewrite Z.lxor_spec, Z.shiftr_lxor.
  destruct (Z.testbit a 0), (Z.testbit b 0); cbn [xorb]; bitwise.
Qed.

Lemma iter_crc32_shift_lxor (k : nat) (a b : Z) :
  Nat.iter k crc32_shift (Z.lxor a b)
  = Z.lxor (Nat.iter k crc32_shift a) (Nat.iter k crc32_shift b).
Proof.
  induction k as [|k IH]; [reflexivity|].
  rewrite !Nat.iter_succ, IH. apply crc32_shift_lxor.
Qed.

Lemma iter_crc32_shift_shiftl (h : Z) (k : nat) :
  Nat.iter k crc32_shift (Z.shiftl h (Z.of_nat k)) = h.
Proof.
  induction k as [|k IH]; [apply Z.shiftl_0_r|].
  rewrite Nat.iter_succ_r.
  assert (Hs : crc32_shift (Z.shiftl h (Z.of_nat (S k))) = Z.shiftl h (Z.of_nat k)).
  { unfold crc32_shift. rewrite Z.shiftl_spec_low by lia.
    rewrite Z.shiftr_shiftl_l by lia. f_equal. lia. }
  rewrite Hs. exact IH.
Qed.

Lemma split_low_byte (v : Z) :
  v = Z.lxor (Z.land v 255) (Z.shiftl (Z.shiftr v 8) 8).
Proof.
  rewrite <- Z.ldiff_ones_r by lia. change 255 with (Z.ones 8).
  apply Z.bits_inj'; intros n Hn.
  rewrite Z.lxor_spec, Z.land_spec, Z.ldiff_spec.
  destruct (Z.testbit v n), (Z.testbit (Z.ones 8) n); reflexivity.
Qed.

(** One table lookup does the work of eight shifts. *)
Lemma crc32_table_step (v : Z) :
  Nat.iter 8 crc32_shift v
  = Z.lxor (Nat.iter 8 crc32_shift (Z.land v 255)) (Z.shiftr v 8).
Proof.
  rewrite (split_low_byte v) at 1.
  rewrite iter_crc32_shift_lxor.
  pose proof (iter_crc32_shift_shiftl (Z.shiftr v 8) 8) as H.
  change (Z.of_nat 8) with 8 in H. rewrite H. reflexivity.
Qed.

Lemma CRC_TABLE_entry (n : Z) :
  0 <= n < 256 -> wrap32u (CRC_TABLE_at n) = Nat.iter 8 crc32_shift n.
Proof.
  intros Hn.
  assert (Hall : forallb (fun k => wrap32u (CRC_TABLE_at (Z.of_nat k))
                                   =? Nat.iter 8 crc32_shift (Z.of_nat k))
                   (seq 0 256) = true) by (vm_compute; reflexivity).
  rewrite forallb_forall in Hall.
  specialize (Hall (Z.to_nat n)). rewrite Z2Nat.id in Hall by lia.
  apply Z.eqb_eq, Hall. apply in_seq. lia.
Qed.

Lemma crc_step_reference (s : Z) (b : byte) :
  wrap32u (js_xor (CRC_TABLE_at (js_and (js_xor s (u8 b)) 0xff)) (js_ushr s 8))
  = crc32_byte (wrap32u s) b.
Proof.
  pose proof (u8_range b) as Hb. pose proof (wrap32u_range s) as Hs.
  rewrite wrap32u_js_xor, js_and_255, wrap32u_js_xor.
  rewrite (wrap32u_small (u8 b)) by lia.
  rewrite CRC_TABLE_entry
    by (rewrite land_255; apply Z.mod_pos_bound; lia).
  unfold crc32_byte. rewrite (crc32_table_step (Z.lxor (wrap32u s) (u8 b))).
  f_equal.
  unfold js_ushr. change (8 mod 32) with 8.
  rewrite Z.shiftr_lxor.
  assert (H8 : Z.shiftr (u8 b) 8 = 0).
  { rewrite Z.shiftr_div_pow2 by lia. apply Z.div_small. change (2 ^ 8) with 256. lia. }
  rewrite H8, Z.lxor_0_r.
  apply wrap32u_small.
  rewrite Z.shiftr_div_pow2 by lia. split.
  - apply Z.div_pos; lia.
  - apply Z.le_lt_trans with (wrap32u s); [|lia].
    apply Z.div_le_upper_bound; lia.
Qed.

Lemma fold_left_simulation {A B X : Type} (f : A -> X -> A) (g : B -> X -> B)
    (R : A -> B) :
  (forall a x, R (f a x) = g (R a) x) ->
  forall l a, R (fold_left f l a) = fold_left g l (R a).
Proof.
  intros Hstep l. induction l as [|x l IH]; intros a; cbn [fold_left]; [reflexivity|].
  rewrite IH, Hstep. reflexivity.
Qed.

(** With the default [previous], [calculateCRC] is the reference loop run
    from register 0, complemented at the end. *)
Lemma calculateCRC_zero_register (bytes : list byte) :
  wrap32u (calculateCRC bytes 0) = Z.lxor (fold_left crc32_byte bytes 0) 0xFFFFFFFF.
Proof.
  unfold calculateCRC. change (0 =? 0) with true. cbn iota.
  rewrite wrap32u_js_xor.
  rewrite (fold_left_simulation _ crc32_byte wrap32u
             (fun a x => crc_step_reference a x)).
  reflexivity.
Qed.

Lemma crc32_byte_lxor (u d : Z) (b : byte) :
  crc32_byte (Z.lxor u d) b = Z.lxor (crc32_byte u b) (Nat.iter 8 crc32_shift d).
Proof.
  unfold crc32_byte. rewrite <- iter_crc32_shift_lxor. f_equal. bitwise.
Qed.

Lemma fold_crc32_byte_lxor (bytes : list byte) :
  forall u d,
    fold_left crc32_byte bytes (Z.lxor u d)
    = Z.lxor (fold_left crc32_byte bytes u)
             (Nat.iter (8 * length bytes) crc32_shift d).
Proof.
  induction bytes as [|b bytes IH]; intros u d; cbn [fold_left length].
  - reflexivity.
  - rewrite crc32_byte_lxor, IH. f_equal.
    replace (8 * S (length bytes))%nat with (8 * length bytes + 8)%nat by lia.
    rewrite Nat.iter_add. reflexivity.
Qed.

Lemma crc32_shift_nonzero (x : Z) :
  0 < x < 2 ^ 32 -> 0 < crc32_shift x < 2 ^ 32.
Proof.
  intros Hx. unfold crc32_shift.
  assert (Hh : 0 <= Z.shiftr x 1 < 2 ^ 31).
  { rewrite Z.shiftr_div_pow2 by lia. change (2 ^ 1) with 2.
    split; [apply Z.div_pos; lia | apply Z.div_lt_upper_bound; lia]. }
  destruct (Z.testbit x 0) eqn:Hbit.
  - assert (Hnn : 0 <= Z.lxor (Z.shiftr x 1) 0xEDB88320) by (apply Z.lxor_nonneg; lia).
    assert (Hne : Z.lxor (Z.shiftr x 1) 0xEDB88320 <> 0).
    { intros H0. apply Z.lxor_eq in H0. lia. }
    split; [lia|].
    destruct (Z.eq_dec (Z.shiftr x 1) 0) as [Hz|Hz].
    + rewrite Hz, Z.lxor_0_l. lia.
    + apply Z.log2_lt_pow2; [lia|].
      eapply Z.le_lt_trans; [apply Z.log2_lxor; lia|].
      apply Z.max_lub_lt.
      * apply Z.log2_lt_pow2; lia.
      * vm_compute. reflexivity.
  - split; [|lia].
    rewrite Z.bit0_odd in Hbit.
    pose proof (Zmod_odd x) as Hodd. rewrite Hbit in Hodd.
    pose proof (Z.div_mod x 2 ltac:(lia)) as Hd.
    rewrite Z.shiftr_div_pow2 by lia. change (2 ^ 1) with 2.
    lia.
Qed.

Lemma iter_crc32_shift_nonzero (k : nat) (x : Z) :
  0 < x < 2 ^ 32 -> 0 < Nat.iter k crc32_shift x < 2 ^ 32.
Proof.
  intros Hx. induction k as [|k IH]; [exact Hx|].
  rewrite Nat.iter_succ. apply crc32_shift_nonzero. exact IH.
Qed.

(** No byte sequence gets the reference checksum from the default call. *)
Lemma calculateCRC_never_reference (bytes : list byte) :
  wrap32u (calculateCRC bytes 0) <> crc32_reference bytes.
Proof.
  rewrite calculateCRC_zero_register. unfold crc32_reference.
  intros H.
  assert (H' : fold_left crc32_byte bytes 0 = fold_left crc32_byte bytes 0xFFFFFFFF).
  { apply (f_equal (fun z => Z.lxor z 0xFFFFFFFF)) in H.
    rewrite !Z.lxor_assoc, !Z.lxor_nilpotent, !Z.lxor_0_r in H. exact H. }
  change 0xFFFFFFFF with (Z.lxor 0 0xFFFFFFFF) in H'.
  rewrite fold_crc32_byte_lxor in H'.
  pose proof (iter_crc32_shift_nonzero (8 * length bytes) 0xFFFFFFFF ltac:(lia)) as Hnz.
  set (r := Nat.iter (8 * length bytes) crc32_shift 0xFFFFFFFF) in *.
  apply (f_equal (Z.lxor (fold_left crc32_byte bytes 0))) in H'.
  rewrite Z.lxor_nilpotent, <- Z.lxor_assoc, Z.lxor_nilpotent, Z.lxor_0_l in H'.
  lia.
Qed.

(** * Further properties of the module *)

(** ** Bounds of the accessors on the view of a whole buffer *)

Lemma GetViewValue_whole (st : Store) (b : nat) (i : Z) (n : nat) :
  GetViewValue st (new_DataView st b) i n
  = if (i <? 0) || (Z.of_nat (length (ArrayBuffer_data st b)) <? i + Z.of_nat n)
    then Throw RangeError
    else Ok (take n (drop (Z.to_nat i) (ArrayBuffer_data st b))).
Proof.
  unfold GetViewValue, new_DataView, ArrayBuffer_byteLength;
    cbn [buffer byteOffset byteLength].
  destruct (Z.ltb_spec i 0); cbn [orb]; [reflexivity|].
  destruct (Z.ltb_spec (Z.of_nat (length (ArrayBuffer_data st b))) (i + Z.of_nat n));
    [reflexivity|].
  rewrite Z.add_0_l.
  destruct (Nat.eqb_spec
              (length (take n (drop (Z.to_nat i) (ArrayBuffer_data st b)))) n)
    as [_|Hne]; [reflexivity|].
  exfalso. apply Hne. rewrite length_take, length_drop. lia.
Qed.

Lemma getUint8_whole (st : Store) (b : nat) (i : Z) :
  getUint8 st (new_DataView st b) i
  = if (i <? 0) || (Z.of_nat (length (ArrayBuffer_data st b)) <? i + 1)
    then Throw RangeError
    else Ok (be_decode (take 1 (drop (Z.to_nat i) (ArrayBuffer_data st b)))).
Proof.
  unfold getUint8. rewrite GetViewValue_whole. change (Z.of_nat 1) with 1.
  destruct (_ || _); reflexivity.
Qed.

Lemma split_at (data : list byte) (i n : nat) :
  data = take i data ++ take n (drop i data) ++ drop (i + n) data.
Proof.
  rewrite <- drop_drop, (take_drop n (drop i data)), take_drop. reflexivity.
Qed.

Lemma getChunkType_whole (st : Store) (b : nat) (offset : Z) :
  let data := ArrayBuffer_data st b in
  getChunkType st (new_DataView st b) offset
  = if (0 <=? offset) && (offset + 4 <=? Z.of_nat (length data))
    then Ok (join (map (fun x => fromCharCode (u8 x))
                       (take 4 (drop (Z.to_nat offset) data))))
    else Throw (Error "Failed to read chunk type").
Proof.
  intros data.
  destruct (Z.leb_spec 0 offset) as [H0|H0]; cbn [andb].
  - destruct (Z.leb_spec (offset + 4) (Z.of_nat (length data))) as [H4|H4].
    + pose proof (split_at data (Z.to_nat offset) 4) as Hs.
      pose proof (getChunkType_at st b (take (Z.to_nat offset) data)
                    (drop (Z.to_nat offset + 4) data)
                    (take 4 (drop (Z.to_nat offset) data))) as Hg.
      assert (Hl : Z.of_nat (length (take (Z.to_nat offset) data)) = offset)
        by (rewrite length_take; lia).
      rewrite Hl in Hg. apply Hg; [|exact Hs].
      rewrite length_take, length_drop. lia.
    + unfold getChunkType. cbn [Array_from].
      rewrite !getUint8_whole. fold data.
      repeat match goal with
             | |- context [if ?c then _ else _] =>
                 destruct c eqn:?; cbn [bind try_catch]; try reflexivity
             end.
      exfalso. rewrite orb_false_iff in *. lia.
  - unfold getChunkType. cbn [Array_from].
    rewrite getUint8_whole.
    destruct (Z.ltb_spec (offset + 0) 0); [reflexivity | lia].
Qed.

Lemma fromCharCode_u8 (x : byte) : fromCharCode (u8 x) = ascii_of_byte x.
Proof.
  unfold fromCharCode, u8. rewrite N2Z.id. symmetry. apply ascii_of_byte_via_N.
Qed.

Lemma type_string_inj (t1 t2 : list byte) :
  join (map (fun x => fromCharCode (u8 x)) t1)
  = join (map (fun x => fromCharCode (u8 x)) t2) ->
  t1 = t2.
Proof.
  unfold join. intros H.
  apply (f_equal list_ascii_of_string) in H.
  rewrite !list_ascii_of_string_of_list_ascii in H.
  revert t2 H. induction t1 as [|x t1 IH]; intros [|y t2] H; try discriminate H.
  - reflexivity.
  - cbn [map] in H. injection H as Hxy Ht. rewrite !fromCharCode_u8 in Hxy.
    apply (f_equal byte_of_ascii) in Hxy. rewrite !byte_of_ascii_of_byte in Hxy.
    subst y. f_equal. apply IH. exact Ht.
Qed.

Lemma length_type_string (t : list byte) :
  String.length (join (map (fun x => fromCharCode (u8 x)) t)) = length t.
Proof.
  unfold join. induction t as [|x t IH]; [reflexivity|].
  cbn [map string_of_list_ascii String.length]. rewrite IH. reflexivity.
Qed.

(** X1. [getChunkType] on the view of a whole buffer: when the four bytes at
    [offset] lie inside the buffer it returns the four-character string of
    their codes; when they do not, it throws [Failed to read chunk type]
    (never the [RangeError] of the accessor); and two offsets give the same
    string only if they hold the same four bytes. *)
Theorem getChunkType_four_bytes (st : Store) (b : nat) (offset : Z) :
  let data := ArrayBuffer_data st b in
  let view := new_DataView st b in
  (0 <= offset /\ offset + 4 <= Z.of_nat (length data) ->
   exists s,
     getChunkType st view offset = Ok s /\
     s = join (map (fun x => fromCharCode (u8 x)) (take 4 (drop (Z.to_nat offset) data))) /\
     String.length s = 4%nat) /\
  (offset < 0 \/ Z.of_nat (length data) < offset + 4 ->
   getChunkType st view offset = Throw (Error "Failed to read chunk type")) /\
  (forall other s,
      getChunkType st view offset = Ok s ->
      getChunkType st view other = Ok s ->
      take 4 (drop (Z.to_nat offset) data) = take 4 (drop (Z.to_nat other) data)).
Proof.
  intros data view. subst view.
  split; [|split].
  - intros [H0 H4]. eexists. split; [|split; [reflexivity|]].
    + rewrite getChunkType_whole. fold data.
      destruct (Z.leb_spec 0 offset); [|lia].
      destruct (Z.leb_spec (offset + 4) (Z.of_nat (length data))); [|lia].
      reflexivity.
    + rewrite length_type_string, length_take, length_drop. lia.
  - intros Hout. rewrite getChunkType_whole. fold data.
    destruct (Z.leb_spec 0 offset); cbn [andb]; [|reflexivity].
    destruct (Z.leb_spec (offset + 4) (Z.of_nat (length data))); [lia | reflexivity].
  - intros other s H1 H2. rewrite getChunkType_whole in H1, H2. fold data in H1, H2.
    destruct (_ && _); [|discriminate H1].
    destruct (_ && _); [|discriminate H2].
    injection H1 as <-. injection H2 as H2. symmetry. apply type_string_inj. exact H2.
Qed.

Lemma getChunkType_four_bytes_witness :
  getChunkType [png_plain] (new_DataView [png_plain] 0) 12 = Ok "IHDR"
  /\ getChunkType [png_plain] (new_DataView [png_plain] 0) 64
     = Throw (Error "Failed to read chunk type").
Proof.
  pose proof (getChunkType_four_bytes [png_plain] 0 12) as (Hin & _ & _).
  pose proof (getChunkType_four_bytes [png_plain] 0 64) as (_ & Hout & _).
  split.
  - destruct Hin as (s & Hs & Heq & _); [cbn; lia|].
    rewrite Hs, Heq. reflexivity.
  - apply Hout. right. cbn. lia.
Defined.

Lemma parsePhys_whole (st : Store) (b : nat) (offset : Z) :
  let data := ArrayBuffer_data st b in
  parsePhys st (new_DataView st b) offset
  = if (0 <=? offset) && (offset + 8 <=? Z.of_nat (length data))
    then Ok {| PhysicalDimensions.ppux := be_decode (take 4 (drop (Z.to_nat offset) data));
               PhysicalDimensions.ppuy := be_decode (take 4 (drop (Z.to_nat (offset + 4)) data));
               PhysicalDimensions.unit := be_decode (take 1 (drop (Z.to_nat (offset + 4)) data)) |}
    else Throw (Error "Failed to parse physical dimensions").
Proof.
  intros data. unfold parsePhys, getUint32, getUint8.
  rewrite !GetViewValue_whole. fold data.
  change (Z.of_nat 4) with 4. change (Z.of_nat 1) with 1.
  destruct (Z.leb_spec 0 offset); destruct (Z.leb_spec (offset + 8) (Z.of_nat (length data)));
    cbn [andb];
    repeat match goal with
           | |- context [?x <? ?y] => destruct (Z.ltb_spec x y); try lia
           end;
    cbn [orb bind try_catch]; reflexivity.
Qed.

(** X2. [parsePhys] on the view of a whole buffer succeeds exactly when the
    eight bytes from [offset] lie inside the buffer: the ninth payload byte
    is never needed, and any shorter range, or a negative offset, gives
    the exception [Failed to parse physical dimensions]. *)
Theorem parsePhys_needs_eight_bytes (st : Store) (b : nat) (offset : Z) :
  let data := ArrayBuffer_data st b in
  let view := new_DataView st b in
  ((exists p, parsePhys st view offset = Ok p) <->
   0 <= offset /\ offset + 8 <= Z.of_nat (length data)) /\
  ((forall p, parsePhys st view offset <> Ok p) ->
   parsePhys st view offset = Throw (Error "Failed to parse physical dimensions")).
Proof.
  intros data view. subst view. rewrite parsePhys_whole. fold data.
  destruct (Z.leb_spec 0 offset); destruct (Z.leb_spec (offset + 8) (Z.of_nat (length data)));
    cbn [andb]; split;
    try (split; [intros [p Hp]; (discriminate Hp || lia) | intros; (lia || eauto)]);
    try (intros Hn; first [reflexivity | exfalso; eapply Hn; reflexivity]).
Qed.

Lemma parsePhys_needs_eight_bytes_witness :
  (exists p, parsePhys [bytes_of [0;0;11;19; 0;0;11;19]]
               (new_DataView [bytes_of [0;0;11;19; 0;0;11;19]] 0) 0 = Ok p)
  /\ parsePhys [bytes_of [0;0;11;19; 0;0;11]]
       (new_DataView [bytes_of [0;0;11;19; 0;0;11]] 0) 0
     = Throw (Error "Failed to parse physical dimensions").
Proof.
  split.
  - apply (proj1 (parsePhys_needs_eight_bytes [bytes_of [0;0;11;19; 0;0;11;19]] 0 0)).
    cbn. lia.
  - apply (proj2 (parsePhys_needs_eight_bytes [bytes_of [0;0;11;19; 0;0;11]] 0 0)).
    intros p Hp.
    assert (H : exists q, parsePhys [bytes_of [0;0;11;19; 0;0;11]]
                  (new_DataView [bytes_of [0;0;11;19; 0;0;11]] 0) 0 = Ok q) by eauto.
    apply (proj1 (parsePhys_needs_eight_bytes [bytes_of [0;0;11;19; 0;0;11]] 0 0)) in H.
    cbn in H. lia.
Defined.

(** ** readChunks, chunk by chunk *)

Lemma isPng_at (st : Store) (b : nat) (prefix rest : list byte) :
  ArrayBuffer_data st b = prefix ++ signature_bytes ++ rest ->
  isPng st (new_DataView st b) (Z.of_nat (length prefix)) = Ok true.
Proof.
  intros Hd. apply isPng_true_iff. intros k Hk.
  assert (Hat : forall n x post,
             signature_bytes ++ rest = take n signature_bytes ++ x :: post ->
             (n <= 8)%nat ->
             getUint8 st (new_DataView st b) (Z.of_nat (length prefix) + Z.of_nat n)
             = Ok (u8 x)).
  { intros n x post Heq Hn.
    replace (Z.of_nat (length prefix) + Z.of_nat n)
      with (Z.of_nat (length (prefix ++ take n signature_bytes)))
      by (rewrite length_app, length_take; change (length signature_bytes) with 8%nat; lia).
    apply (getUint8_at st b _ post x). rewrite Hd, Heq, <- app_assoc. reflexivity. }
  do 8 (destruct k as [|k];
        [ match goal with
          | |- getUint8 _ _ (_ + Z.of_nat ?n) = _ =>
              exact (Hat n (nth n signature_bytes x00)
                       (drop (S n) signature_bytes ++ rest) eq_refl ltac:(lia))
          end | ]).
  lia.
Qed.

(** [length cs] iterations of the loop consume the chunks [cs]. *)
Lemma readChunks_while_steps (st : Store) (b : nat) (tail : list byte) :
  forall (cs : list Chunk) (pre : list byte) (table : gmap string PngChunk.t) (k : nat),
    Forall wf_chunk cs ->
    Forall (fun c => chunk_name c <> "IEND") cs ->
    ArrayBuffer_data st b = pre ++ flat_map encode_chunk cs ++ tail ->
    readChunks_while (length cs + k) st (new_DataView st b) (Z.of_nat (length pre)) table
    = readChunks_while k st (new_DataView st b)
        (Z.of_nat (length pre) + chunks_span cs)
        (chunk_table (Z.of_nat (length pre)) cs table).
Proof.
  induction cs as [|c rest IH]; intros pre table k Hwf Hne Hd.
  - cbn [length chunk_table Nat.add]. unfold chunks_span; cbn [fold_right].
    rewrite Z.add_0_r. reflexivity.
  - cbn [flat_map] in Hd. rewrite <- app_assoc in Hd.
    apply Forall_cons_1 in Hwf as [Hwc Hwf].
    apply Forall_cons_1 in Hne as [Hnc Hne].
    cbn [length Nat.add readChunks_while chunk_table].
    assert (Hle : (Z.of_nat (length pre)
                   <=? ArrayBuffer_byteLength st (buffer (new_DataView st b))) = true).
    { apply Z.leb_le. unfold ArrayBuffer_byteLength; cbn [buffer new_DataView].
      rewrite Hd, length_app. lia. }
    rewrite Hle.
    destruct (read_chunk_header st b pre _ c Hwc Hd) as [-> ->].
    cbn [bind].
    assert (Hnext : Z.of_nat (length pre) + LENGTH_SIZE
                    + (Z.of_nat (length (chunk_data c)) + LENGTH_SIZE + CRC_SIZE)
                    = Z.of_nat (length (pre ++ encode_chunk c))).
    { rewrite length_app, Nat2Z.inj_add, (length_encode_chunk c Hwc).
      unfold chunk_span, LENGTH_SIZE, CRC_SIZE. lia. }
    assert (Hspan : Z.of_nat (length pre) + chunk_span c
                    = Z.of_nat (length (pre ++ encode_chunk c))).
    { rewrite length_app, Nat2Z.inj_add, (length_encode_chunk c Hwc). lia. }
    assert (Hsum : Z.of_nat (length pre) + chunks_span (c :: rest)
                   = Z.of_nat (length (pre ++ encode_chunk c)) + chunks_span rest).
    { rewrite <- Hspan. unfold chunks_span; cbn [fold_right]. lia. }
    rewrite Hnext, Hspan, Hsum.
    assert (Hd' : ArrayBuffer_data st b
                  = (pre ++ encode_chunk c) ++ flat_map encode_chunk rest ++ tail).
    { rewrite Hd, <- app_assoc. reflexivity. }
    replace (Z.of_nat (length pre) + LENGTH_SIZE + 4)
      with (Z.of_nat (length pre) + 8) by (unfold LENGTH_SIZE; lia).
    destruct (String.eqb_spec (chunk_name c) "IDAT") as [Hidat|Hidat].
    + rewrite Hidat. cbn [andb].
      destruct (bool_decide (is_Some (table !! "IDAT"))).
      * apply IH; assumption.
      * cbn [String.eqb Ascii.eqb Bool.eqb].
        unfold chunk_entry. apply IH; assumption.
    + cbn [andb].
      destruct (String.eqb_spec (chunk_name c) "IEND") as [Hiend|_]; [contradiction|].
      unfold chunk_entry. apply IH; assumption.
Qed.

Lemma readChunks_layout_at (st : Store) (b : nat) (prefix : list byte)
    (cs : list Chunk) (len4 rest : list byte) (fuel : nat) :
  Forall wf_chunk cs ->
  Forall (fun c => chunk_name c <> "IEND") cs ->
  length len4 = 4%nat ->
  ArrayBuffer_data st b
  = prefix ++ signature_bytes ++ flat_map encode_chunk cs ++ len4 ++ IEND_type ++ rest ->
  (length cs < fuel)%nat ->
  readChunks fuel st (new_DataView st b) (Z.of_nat (length prefix))
  = Ok (chunk_table (Z.of_nat (length prefix) + 8) cs ∅).
Proof.
  intros Hwf Hne Hl4 Hd Hfuel. unfold readChunks.
  rewrite (isPng_at st b prefix _ Hd). cbn [bind negb].
  replace (Z.of_nat (length prefix) + Z.of_nat (length SIGNATURE))
    with (Z.of_nat (length (prefix ++ signature_bytes)))
    by (rewrite length_app; change (length signature_bytes) with (length SIGNATURE); lia).
  replace (Z.of_nat (length prefix) + 8)
    with (Z.of_nat (length (prefix ++ signature_bytes)))
    by (rewrite length_app; change (length signature_bytes) with 8%nat; lia).
  set (pre := prefix ++ signature_bytes).
  assert (Hd' : ArrayBuffer_data st b
                = pre ++ flat_map encode_chunk cs ++ len4 ++ IEND_type ++ rest).
  { rewrite Hd. unfold pre. rewrite <- app_assoc. reflexivity. }
  replace fuel with (length cs + S (fuel - length cs - 1))%nat by lia.
  rewrite (readChunks_while_steps st b _ cs pre ∅ _ Hwf Hne Hd').
  rewrite <- (length_flat_encode cs Hwf), <- Nat2Z.inj_add, <- length_app.
  set (pre' := pre ++ flat_map encode_chunk cs).
  assert (Hd'' : ArrayBuffer_data st b = pre' ++ len4 ++ IEND_type ++ rest).
  { rewrite Hd'. unfold pre'. rewrite <- app_assoc. reflexivity. }
  cbn [readChunks_while].
  assert (Hle : (Z.of_nat (length pre')
                 <=? ArrayBuffer_byteLength st (buffer (new_DataView st b))) = true).
  { apply Z.leb_le. unfold ArrayBuffer_byteLength; cbn [buffer new_DataView].
    rewrite Hd'', length_app. lia. }
  rewrite Hle. unfold getInt32.
  pose proof (GetViewValue_at st b pre' len4 (IEND_type ++ rest) Hd'') as Hg.
  rewrite Hl4 in Hg. rewrite Hg. cbn [bind].
  replace (Z.of_nat (length pre') + LENGTH_SIZE)
    with (Z.of_nat (length (pre' ++ len4)))
    by (rewrite length_app, Hl4; unfold LENGTH_SIZE; lia).
  rewrite (getChunkType_at st b (pre' ++ len4) rest IEND_type eq_refl)
    by (rewrite Hd'', <- app_assoc; reflexivity).
  reflexivity.
Qed.

(** X3. A file whose chunks run to the end of the buffer without an [IEND]
    chunk (fewer than eight bytes follow the last chunk) makes [readChunks]
    throw [Failed to read PNG chunks], although every chunk is well formed:
    the loop reads one more chunk header past the last chunk. *)
Theorem readChunks_missing_IEND (st : Store) (b : nat) (cs : list Chunk)
    (tail : list byte) (fuel : nat) :
  Forall wf_chunk cs ->
  Forall (fun c => chunk_name c <> "IEND") cs ->
  (length tail < 8)%nat ->
  ArrayBuffer_data st b = signature_bytes ++ flat_map encode_chunk cs ++ tail ->
  (length cs < fuel)%nat ->
  readChunks fuel st (new_DataView st b) 0 = Throw (Error "Failed to read PNG chunks").
Proof.
  intros Hwf Hne Htail Hd Hfuel. unfold readChunks.
  rewrite (isPng_signature st b _ Hd). cbn [bind negb].
  change (0 + Z.of_nat (length SIGNATURE)) with (Z.of_nat (length signature_bytes)).
  replace fuel with (length cs + S (fuel - length cs - 1))%nat by lia.
  rewrite (readChunks_while_steps st b tail cs signature_bytes ∅ _ Hwf Hne Hd).
  rewrite <- (length_flat_encode cs Hwf), <- Nat2Z.inj_add, <- length_app.
  set (pre := signature_bytes ++ flat_map encode_chunk cs).
  assert (Hlen : length (ArrayBuffer_data st b) = (length pre + length tail)%nat).
  { rewrite Hd, app_assoc, length_app. reflexivity. }
  cbn [readChunks_while].
  assert (Hle : (Z.of_nat (length pre)
                 <=? ArrayBuffer_byteLength st (buffer (new_DataView st b))) = true).
  { apply Z.leb_le. unfold ArrayBuffer_byteLength; cbn [buffer new_DataView]. lia. }
  rewrite Hle. unfold getInt32. rewrite GetViewValue_whole.
  destruct ((Z.of_nat (length pre) <? 0)
            || (Z.of_nat (length (ArrayBuffer_data st b)) <? Z.of_nat (length pre) + Z.of_nat 4));
    [reflexivity|].
  cbn [bind]. rewrite getChunkType_whole. cbv zeta.
  destruct (Z.leb_spec 0 (Z.of_nat (length pre) + LENGTH_SIZE)); [|reflexivity].
  destruct (Z.leb_spec (Z.of_nat (length pre) + LENGTH_SIZE + 4)
              (Z.of_nat (length (ArrayBuffer_data st b)))); [|reflexivity].
  unfold LENGTH_SIZE in *. lia.
Qed.

Lemma readChunks_missing_IEND_witness :
  readChunks 3 [signature_bytes ++ encode_chunk IHDR_1x1 ++ encode_chunk IDAT_1x1]
    (new_DataView [signature_bytes ++ encode_chunk IHDR_1x1 ++ encode_chunk IDAT_1x1] 0) 0
  = Throw (Error "Failed to read PNG chunks").
Proof.
  apply (readChunks_missing_IEND _ 0%nat [IHDR_1x1; IDAT_1x1] [] 3%nat).
  - repeat constructor; cbn; lia.
  - repeat constructor; vm_compute; discriminate.
  - cbn. lia.
  - reflexivity.
  - cbn. lia.
Defined.

(** X4. [readChunks] stops at the type code [IEND]: whatever the four bytes of
    the [IEND] length field are and whatever follows the type code (no CRC,
    garbage, more chunks), the table is the table of the chunks before
    [IEND]. *)
Theorem readChunks_stops_at_IEND (st : Store) (b : nat) (cs : list Chunk)
    (len4 rest : list byte) (fuel : nat) :
  Forall wf_chunk cs ->
  Forall (fun c => chunk_name c <> "IEND") cs ->
  length len4 = 4%nat ->
  ArrayBuffer_data st b
  = signature_bytes ++ flat_map encode_chunk cs ++ len4 ++ IEND_type ++ rest ->
  (length cs < fuel)%nat ->
  readChunks fuel st (new_DataView st b) 0 = Ok (chunk_table 8 cs ∅).
Proof.
  intros Hwf Hne Hl4 Hd Hfuel.
  exact (readChunks_layout_at st b [] cs len4 rest fuel Hwf Hne Hl4 Hd Hfuel).
Qed.

Lemma readChunks_stops_at_IEND_witness :
  let data := signature_bytes ++ encode_chunk IHDR_1x1
                ++ bytes_of [255; 1; 2; 3] ++ IEND_type ++ encode_chunk tEXt_note in
  readChunks 2 [data] (new_DataView [data] 0) 0 = Ok (chunk_table 8 [IHDR_1x1] ∅).
Proof.
  intros data.
  apply (readChunks_stops_at_IEND [data] 0%nat [IHDR_1x1] (bytes_of [255; 1; 2; 3])
           (encode_chunk tEXt_note) 2%nat).
  - repeat constructor; cbn; lia.
  - repeat constructor; vm_compute; discriminate.
  - reflexivity.
  - reflexivity.
  - cbn. lia.
Defined.

(** X7. [readChunks(view, offset)] on a file embedded at [offset] of a larger
    buffer returns entries whose [start] and [dataOffset] are positions in
    the buffer, not in the file: the table is the chunk table laid out from
    [offset + 8]. *)
Theorem readChunks_at_offset (st : Store) (b : nat) (prefix : list byte)
    (chunks : list Chunk) (iend : Chunk) (trailing : list byte) (fuel : nat) :
  valid_png chunks iend ->
  ArrayBuffer_data st b = prefix ++ png_bytes chunks iend trailing ->
  (length chunks < fuel)%nat ->
  let offset := Z.of_nat (length prefix) in
  readChunks fuel st (new_DataView st b) offset = Ok (chunk_table (offset + 8) chunks ∅)
  /\ forall l1 c l2,
       chunks = l1 ++ c :: l2 ->
       chunk_name c <> "IDAT" ->
       Forall (fun x => chunk_name x <> chunk_name c) l2 ->
       chunk_table (offset + 8) chunks ∅ !! chunk_name c
       = Some {| PngChunk.start := offset + 8 + chunks_span l1;
                 PngChunk.dataOffset := offset + 8 + chunks_span l1 + 8;
                 PngChunk.size := Z.of_nat (length (chunk_data c)) |}.
Proof.
  intros [Hwf Hne Hwi Hni Hie] Hd Hfuel offset. split.
  - unfold png_bytes, encode_chunk in Hd. rewrite Hie in Hd. cbn [length app] in Hd.
    assert (Ht : chunk_type iend = IEND_type).
    { apply type_string_inj. exact Hni. }
    rewrite Ht in Hd.
    apply (readChunks_layout_at st b prefix chunks (be32 (Z.of_nat 0))
             (chunk_crc iend ++ trailing) fuel Hwf Hne eq_refl); [|exact Hfuel].
    rewrite Hd, <- !app_assoc. reflexivity.
  - intros l1 c l2 -> Hc Hl2. apply chunk_table_last_wins; assumption.
Qed.

Lemma readChunks_at_offset_witness :
  readChunks 3 [bytes_of [1; 2; 3] ++ png_plain]
    (new_DataView [bytes_of [1; 2; 3] ++ png_plain] 0) 3
  = Ok (chunk_table 11 [IHDR_1x1; IDAT_1x1] ∅).
Proof.
  apply (readChunks_at_offset [bytes_of [1; 2; 3] ++ png_plain] 0%nat (bytes_of [1; 2; 3])
           [IHDR_1x1; IDAT_1x1] IEND [] 3%nat).
  - solve_valid_png.
  - reflexivity.
  - cbn. lia.
Defined.

(** ** What the table holds *)

#[local] Set Warnings "-clear-no-such-hyp".

Lemma dom_chunk_table (cs : list Chunk) :
  forall offset (table : gmap string PngChunk.t),
    dom (chunk_table offset cs table)
    = dom table ∪ list_to_set (map chunk_name cs).
Proof.
  induction cs as [|c cs IH]; intros offset table; cbn [chunk_table map list_to_set].
  - set_solver.
  - rewrite IH.
    destruct (String.eqb_spec (chunk_name c) "IDAT") as [Hc|Hc]; cbn [andb].
    + destruct (bool_decide_reflect (is_Some (table !! "IDAT"))) as [Hs|Hs].
      * apply elem_of_dom in Hs. rewrite Hc. set_solver.
      * rewrite dom_insert_L. set_solver.
    + rewrite dom_insert_L. set_solver.
Qed.

(** X5. On a well-formed file the keys of the table [readChunks] returns are
    exactly the type codes of the chunks before [IEND]; [IEND] itself is
    never a key. *)
Theorem readChunks_keys (st : Store) (b : nat) (chunks : list Chunk) (iend : Chunk)
    (trailing : list byte) (fuel : nat) :
  valid_png chunks iend ->
  ArrayBuffer_data st b = png_bytes chunks iend trailing ->
  (length chunks < fuel)%nat ->
  exists table : gmap string PngChunk.t,
    readChunks fuel st (new_DataView st b) 0 = Ok table /\
    dom table = list_to_set (map chunk_name chunks) /\
    "IEND" ∉ dom table.
Proof.
  intros Hv Hd Hfuel. exists (chunk_table 8 chunks ∅).
  split; [exact (readChunks_valid st b chunks iend trailing fuel Hv Hd Hfuel)|].
  rewrite dom_chunk_table, dom_empty_L, union_empty_l_L.
  split; [reflexivity|].
  rewrite elem_of_list_to_set, list_elem_of_In, in_map_iff.
  intros (c & Hc & Hin).
  pose proof (valid_no_early_iend _ _ Hv) as Hne.
  rewrite List.Forall_forall in Hne. exact (Hne c Hin Hc).
Qed.

Lemma readChunks_keys_witness :
  exists table : gmap string PngChunk.t,
    readChunks 4 [png_with_phys] (new_DataView [png_with_phys] 0) 0 = Ok table /\
    dom table = {["IHDR"; "pHYs"; "IDAT"]} /\
    "IEND" ∉ dom table.
Proof.
  destruct (readChunks_keys [png_with_phys] 0%nat [IHDR_1x1; pHYs_72dpi; IDAT_1x1] IEND []
              4%nat) as (table & Hr & Hdom & Hend).
  - solve_valid_png.
  - reflexivity.
  - cbn. lia.
  - exists table. split; [exact Hr|]. split; [|exact Hend].
    rewrite Hdom. cbn [map list_to_set].
    change (chunk_name IHDR_1x1) with "IHDR".
    change (chunk_name pHYs_72dpi) with "pHYs".
    change (chunk_name IDAT_1x1) with "IDAT".
    set_solver.
Defined.

Lemma chunk_data_at (pre post : list byte) (c : Chunk) (data : list byte) :
  wf_chunk c ->
  data = pre ++ encode_chunk c ++ post ->
  let dataOffset := Z.of_nat (length pre) + 8 in
  slice_bytes data dataOffset (Some (dataOffset + Z.of_nat (length (chunk_data c))))
  = chunk_data c.
Proof.
  intros (Ht & Hc & _) Hd dataOffset. subst dataOffset data.
  assert (Hre : pre ++ encode_chunk c ++ post
                = (pre ++ be32 (Z.of_nat (length (chunk_data c))) ++ chunk_type c)
                  ++ chunk_data c ++ (chunk_crc c ++ post)).
  { unfold encode_chunk. rewrite <- !app_assoc. reflexivity. }
  assert (Hl : Z.of_nat (length pre) + 8
               = Z.of_nat (length (pre ++ be32 (Z.of_nat (length (chunk_data c)))
                                     ++ chunk_type c))).
  { rewrite !length_app, length_be32, Ht. lia. }
  rewrite Hre, Hl. rewrite slice_bytes_range.
  - rewrite Nat2Z.id.
    replace (Z.of_nat (length (pre ++ be32 (Z.of_nat (length (chunk_data c)))
                                 ++ chunk_type c))
             + Z.of_nat (length (chunk_data c))
             - Z.of_nat (length (pre ++ be32 (Z.of_nat (length (chunk_data c)))
                                   ++ chunk_type c)))
      with (Z.of_nat (length (chunk_data c))) by lia.
    rewrite Nat2Z.id, drop_app_length, take_app_length. reflexivity.
  - lia.
  - rewrite (length_app (pre ++ _ ++ _)), (length_app (chunk_data c)). lia.
Qed.

(** X6. Round trip between the file and the table: on a well-formed file,
    for the first [IDAT] chunk and for the last chunk of any other type,
    [findChunk] returns an entry, and slicing the buffer from its
    [dataOffset] over [size] bytes gives back exactly the data of that
    chunk. *)
Theorem findChunk_locates_data (st : Store) (b : nat) (l1 l2 : list Chunk) (c iend : Chunk)
    (trailing : list byte) (fuel : nat) :
  let chunks := l1 ++ c :: l2 in
  let data := png_bytes chunks iend trailing in
  valid_png chunks iend ->
  (chunk_name c = "IDAT" /\ Forall (fun x => chunk_name x <> "IDAT") l1) \/
  (chunk_name c <> "IDAT" /\ Forall (fun x => chunk_name x <> chunk_name c) l2) ->
  ArrayBuffer_data st b = data ->
  (length chunks < fuel)%nat ->
  exists entry,
    findChunk fuel st (new_DataView st b) (chunk_name c) = Ok (Some entry) /\
    PngChunk.start entry = 8 + chunks_span l1 /\
    slice_bytes data (PngChunk.dataOffset entry)
      (Some (PngChunk.dataOffset entry + PngChunk.size entry))
    = chunk_data c.
Proof.
  intros chunks data Hv Hpos Hd Hfuel.
  exists (chunk_entry (8 + chunks_span l1) c). split; [|split; [reflexivity|]].
  - rewrite (findChunk_valid st b chunks iend trailing fuel (chunk_name c) Hv Hd Hfuel).
    f_equal. subst chunks. destruct Hpos as [[Hc Hl1] | [Hc Hl2]].
    + rewrite Hc. apply chunk_table_first_IDAT; [exact Hc | exact Hl1 | apply lookup_empty].
    + apply chunk_table_last_wins; assumption.
  - cbn [chunk_entry PngChunk.dataOffset PngChunk.size].
    pose proof (valid_chunks _ _ Hv) as Hwf. subst chunks.
    apply Forall_app in Hwf as [Hw1 Hw2]. apply Forall_cons_1 in Hw2 as [Hwc _].
    replace (8 + chunks_span l1)
      with (Z.of_nat (length (signature_bytes ++ flat_map encode_chunk l1)))
      by (rewrite length_app, Nat2Z.inj_add, (length_flat_encode l1 Hw1);
          change (length signature_bytes) with 8%nat; lia).
    apply (chunk_data_at _ (flat_map encode_chunk l2 ++ encode_chunk iend ++ trailing)
             c data Hwc).
    subst data. unfold png_bytes. rewrite flat_map_app. cbn [flat_map].
    rewrite <- !app_assoc. reflexivity.
Qed.

Lemma findChunk_locates_data_witness :
  exists entry,
    findChunk 4 [png_with_phys] (new_DataView [png_with_phys] 0) "pHYs" = Ok (Some entry) /\
    PngChunk.start entry = 33 /\
    slice_bytes png_with_phys (PngChunk.dataOffset entry)
      (Some (PngChunk.dataOffset entry + PngChunk.size entry))
    = bytes_of [0;0;11;19; 0;0;11;19; 1].
Proof.
  apply (findChunk_locates_data [png_with_phys] 0%nat [IHDR_1x1] [IDAT_1x1] pHYs_72dpi
           IEND [] 4%nat).
  - solve_valid_png.
  - right. split; [vm_compute; discriminate | repeat constructor; vm_compute; discriminate].
  - reflexivity.
  - cbn. lia.
Defined.

(** ** readChunks on arbitrary bytes *)

Lemma getInt32_bounds (st : Store) (view : DataView) (i len : Z) :
  getInt32 st view i = Ok len ->
  0 <= i /\ i + 4 <= byteLength view /\ - 2 ^ 31 <= len < 2 ^ 31.
Proof.
  unfold getInt32, GetViewValue.
  destruct (Z.ltb_spec i 0); [discriminate|].
  destruct (Z.ltb_spec (byteLength view) (i + Z.of_nat 4)); [discriminate|].
  destruct (_ =? _)%nat; [|discriminate].
  cbn [bind]. intros H1. injection H1 as <-.
  split; [lia|]. split; [lia|].
  unfold wrap32s.
  pose proof (Z.mod_pos_bound
                (be_decode (take 4 (drop (Z.to_nat (byteOffset view + i))
                                      (ArrayBuffer_data st (buffer view)))) + 2 ^ 31)
                (2 ^ 32) ltac:(lia)).
  lia.
Qed.

Lemma getChunkType_bounds (st : Store) (view : DataView) (offset : Z) (s : string) :
  getChunkType st view offset = Ok s ->
  0 <= offset /\ offset + 4 <= byteLength view /\ String.length s = 4%nat.
Proof.
  unfold getChunkType. cbn [Array_from].
  destruct (getUint8 st view (offset + 0)) as [c0| |] eqn:E0; try discriminate.
  destruct (getUint8 st view (offset + (0 + 1))) as [c1| |]; try discriminate.
  destruct (getUint8 st view (offset + (0 + 1 + 1))) as [c2| |]; try discriminate.
  destruct (getUint8 st view (offset + (0 + 1 + 1 + 1))) as [c3| |] eqn:E3;
    try discriminate.
  cbn [bind try_catch]. intros H. injection H as <-.
  apply getUint8_bounds in E0. apply getUint8_bounds in E3.
  split; [lia|]. split; [lia | reflexivity].
Qed.

Lemma readChunks_while_invariant (st : Store) (view : DataView) (fuel : nat) :
  forall (offset : Z) (chunks table : gmap string PngChunk.t),
    (forall k e, chunks !! k = Some e -> header_in_view view k e) ->
    readChunks_while fuel st view offset chunks = Ok table ->
    forall k e, table !! k = Some e -> header_in_view view k e.
Proof.
  induction fuel as [|fuel IH]; intros offset chunks table Hinv Hrun; [discriminate Hrun|].
  cbn [readChunks_while] in Hrun.
  destruct (offset <=? ArrayBuffer_byteLength st (buffer view));
    [|injection Hrun as <-; exact Hinv].
  destruct (getInt32 st view offset) as [len| |] eqn:Elen; try discriminate Hrun.
  cbn [bind] in Hrun.
  destruct (getChunkType st view (offset + LENGTH_SIZE)) as [type| |] eqn:Etype;
    try discriminate Hrun.
  cbn [bind] in Hrun.
  destruct ((type =? "IDAT")%string && bool_decide (is_Some (chunks !! type))).
  - exact (IH _ _ _ Hinv Hrun).
  - destruct (String.eqb_spec type "IEND") as [Hend|Hend].
    + injection Hrun as <-. exact Hinv.
    + refine (IH _ _ _ _ Hrun). intros k e Hk.
      destruct (decide (type = k)) as [<-|Hne].
      * rewrite lookup_insert_eq in Hk. injection Hk as <-.
        apply getInt32_bounds in Elen. apply getChunkType_bounds in Etype.
        unfold header_in_view, LENGTH_SIZE in *; cbn. repeat split; try lia; tauto.
      * rewrite lookup_insert_ne in Hk by exact Hne. exact (Hinv k e Hk).
Qed.

(** X8. Whatever the bytes of the buffer and whatever the view, every entry
    of a table that [readChunks] returns has its eight-byte chunk header
    inside the view ([0 <= start], [dataOffset = start + 8 <= byteLength]), a
    [size] in the signed 32-bit range, and a four-character key other than
    [IEND]. *)
Theorem readChunks_entries_in_view (fuel : nat) (st : Store) (view : DataView)
    (offset : Z) (table : gmap string PngChunk.t) :
  readChunks fuel st view offset = Ok table ->
  forall key entry,
    table !! key = Some entry ->
    0 <= PngChunk.start entry /\
    PngChunk.dataOffset entry = PngChunk.start entry + 8 /\
    PngChunk.dataOffset entry <= byteLength view /\
    - 2 ^ 31 <= PngChunk.size entry < 2 ^ 31 /\
    String.length key = 4%nat /\
    key <> "IEND".
Proof.
  unfold readChunks. intros Hrun.
  destruct (isPng st view offset) as [[|]| |]; try discriminate Hrun.
  cbn [bind negb] in Hrun.
  destruct (readChunks_while fuel st view (offset + Z.of_nat (length SIGNATURE)) ∅)
    as [t| |] eqn:Hloop; try discriminate Hrun.
  cbn [try_catch] in Hrun. injection Hrun as <-.
  apply (readChunks_while_invariant st view fuel
           (offset + Z.of_nat (length SIGNATURE)) ∅ t); [|exact Hloop].
  intros k e Hk. rewrite lookup_empty in Hk. discriminate Hk.
Qed.

Lemma readChunks_entries_in_view_witness :
  let entry := {| PngChunk.dataOffset := 41; PngChunk.size := 10; PngChunk.start := 33 |} in
  0 <= PngChunk.start entry /\
  PngChunk.dataOffset entry = PngChunk.start entry + 8 /\
  PngChunk.dataOffset entry <= byteLength (new_DataView [png_plain] 0) /\
  - 2 ^ 31 <= PngChunk.size entry < 2 ^ 31 /\
  String.length "IDAT" = 4%nat /\
  "IDAT" <> "IEND".
Proof.
  intros entry.
  assert (Hr : readChunks 3 [png_plain] (new_DataView [png_plain] 0) 0
               = Ok (chunk_table 8 [IHDR_1x1; IDAT_1x1] ∅)).
  { apply (readChunks_valid [png_plain] 0%nat [IHDR_1x1; IDAT_1x1] IEND [] 3%nat);
      [solve_valid_png | reflexivity | cbn; lia]. }
  apply (readChunks_entries_in_view 3 [png_plain] (new_DataView [png_plain] 0) 0 _ Hr
           "IDAT" entry).
  vm_compute. reflexivity.
Defined.




(** ** calculateCRC with a previous value *)

Lemma lxor_ones_involutive (x : Z) : Z.lxor (Z.lxor x 0xFFFFFFFF) 0xFFFFFFFF = x.
Proof. rewrite Z.lxor_assoc, Z.lxor_nilpotent, Z.lxor_0_r. reflexivity. Qed.

Lemma lxor_range (a b : Z) :
  0 <= a < 2 ^ 32 -> 0 <= b < 2 ^ 32 -> 0 <= Z.lxor a b < 2 ^ 32.
Proof.
  intros Ha Hb.
  rewrite <- (wrap32u_small a Ha), <- (wrap32u_small b Hb), <- wrap32u_lxor.
  apply wrap32u_range.
Qed.

Lemma iter_crc32_shift_range (k : nat) (x : Z) :
  0 <= x < 2 ^ 32 -> 0 <= Nat.iter k crc32_shift x < 2 ^ 32.
Proof.
  intros Hx. destruct (Z.eq_dec x 0) as [->|Hne].
  - assert (H0 : Nat.iter k crc32_shift 0 = 0).
    { induction k as [|k IH]; [reflexivity|]. rewrite Nat.iter_succ, IH. reflexivity. }
    rewrite H0. lia.
  - pose proof (iter_crc32_shift_nonzero k x ltac:(lia)). lia.
Qed.

Lemma crc32_byte_range (c : Z) (b : byte) :
  0 <= c < 2 ^ 32 -> 0 <= crc32_byte c b < 2 ^ 32.
Proof.
  intros Hc. unfold crc32_byte. apply iter_crc32_shift_range, lxor_range; [exact Hc|].
  pose proof (u8_range b). lia.
Qed.

Lemma fold_crc32_byte_range (bytes : list byte) :
  forall c, 0 <= c < 2 ^ 32 -> 0 <= fold_left crc32_byte bytes c < 2 ^ 32.
Proof.
  induction bytes as [|b bytes IH]; intros c Hc; cbn [fold_left]; [exact Hc|].
  apply IH, crc32_byte_range, Hc.
Qed.

Lemma crc_register_range (previous : Z) : 0 <= crc_register previous < 2 ^ 32.
Proof.
  unfold crc_register. destruct (previous =? 0); [lia|].
  apply lxor_range; [apply wrap32u_range | lia].
Qed.

Lemma calculateCRC_register (bytes : list byte) (previous : Z) :
  wrap32u (calculateCRC bytes previous)
  = Z.lxor (fold_left crc32_byte bytes (crc_register previous)) 0xFFFFFFFF.
Proof.
  unfold calculateCRC, crc_register.
  rewrite wrap32u_js_xor.
  rewrite (fold_left_simulation _ crc32_byte wrap32u
             (fun a x => crc_step_reference a x)).
  destruct (previous =? 0); [reflexivity|].
  rewrite wrap32u_js_xor, wrap32u_wrap32s. reflexivity.
Qed.

Lemma wrap32s_wrap32u (z : Z) : wrap32s (wrap32u z) = wrap32s z.
Proof.
  unfold wrap32s, wrap32u.
  rewrite <- (Z.add_mod_idemp_l z) by lia. reflexivity.
Qed.

Lemma js_xor_int32 (a b : Z) : wrap32s (js_xor a b) = js_xor a b.
Proof.
  unfold js_xor. apply wrap32s_small. unfold wrap32s.
  pose proof (Z.mod_pos_bound
                (Z.lxor ((a + 2 ^ 31) mod 2 ^ 32 - 2 ^ 31)
                        ((b + 2 ^ 31) mod 2 ^ 32 - 2 ^ 31) + 2 ^ 31)
                (2 ^ 32) ltac:(lia)).
  unfold wrap32s in *. lia.
Qed.

(** The result is a signed 32-bit integer, so it is determined by its
    unsigned reading. *)
Lemma calculateCRC_int32 (bytes : list byte) (previous : Z) :
  wrap32s (calculateCRC bytes previous) = calculateCRC bytes previous.
Proof. unfold calculateCRC. apply js_xor_int32. Qed.

Lemma calculateCRC_eq_unsigned (a b : list byte) (p q : Z) :
  wrap32u (calculateCRC a p) = wrap32u (calculateCRC b q) ->
  calculateCRC a p = calculateCRC b q.
Proof.
  intros H. rewrite <- (calculateCRC_int32 a p), <- (calculateCRC_int32 b q).
  rewrite <- (wrap32s_wrap32u (calculateCRC a p)), H, wrap32s_wrap32u. reflexivity.
Qed.

(** The loop is injective in its starting register. *)
Lemma fold_crc32_byte_inj (bytes : list byte) (u v : Z) :
  0 <= u < 2 ^ 32 -> 0 <= v < 2 ^ 32 ->
  fold_left crc32_byte bytes u = fold_left crc32_byte bytes v -> u = v.
Proof.
  intros Hu Hv H.
  assert (Hv' : Z.lxor u (Z.lxor u v) = v).
  { rewrite <- Z.lxor_assoc, Z.lxor_nilpotent, Z.lxor_0_l. reflexivity. }
  pose proof (fold_crc32_byte_lxor bytes u (Z.lxor u v)) as Hl.
  rewrite Hv', <- H in Hl. clear H. rename Hl into H.
  set (f := fold_left crc32_byte bytes u) in *.
  set (r := Nat.iter (8 * length bytes) crc32_shift (Z.lxor u v)) in *.
  assert (Hr : r = 0).
  { apply (f_equal (Z.lxor f)) in H.
    rewrite Z.lxor_nilpotent, <- Z.lxor_assoc, Z.lxor_nilpotent, Z.lxor_0_l in H.
    symmetry. exact H. }
  destruct (Z.eq_dec (Z.lxor u v) 0) as [Hz|Hnz].
  - apply Z.lxor_eq in Hz. exact Hz.
  - pose proof (lxor_range u v Hu Hv) as Hx.
    pose proof (iter_crc32_shift_nonzero (8 * length bytes) (Z.lxor u v) ltac:(lia)) as Hp.
    fold r in Hp. lia.
Qed.

(** X10. Feeding the result for [a] back as [previous] continues the
    checksum over [a ++ b] exactly when that result is not 0; a result of 0
    restarts the register instead of continuing. *)
Theorem calculateCRC_chains (a b : list byte) (previous : Z) :
  calculateCRC b (calculateCRC a previous) = calculateCRC (a ++ b) previous
  <-> calculateCRC a previous <> 0.
Proof.
  pose proof (calculateCRC_register a previous) as Ha.
  pose proof (fold_crc32_byte_range a _ (crc_register_range previous)) as Hra.
  set (q := calculateCRC a previous) in *.
  set (ra := fold_left crc32_byte a (crc_register previous)) in *.
  split.
  - intros Heq Hq.
    apply (f_equal wrap32u) in Heq.
    rewrite !calculateCRC_register, fold_left_app in Heq. fold ra in Heq.
    apply (f_equal (fun x => Z.lxor x 0xFFFFFFFF)) in Heq.
    rewrite !lxor_ones_involutive in Heq.
    unfold crc_register in Heq at 1. rewrite Hq in Heq. change (0 =? 0) with true in Heq.
    cbn iota in Heq.
    apply fold_crc32_byte_inj in Heq; [|lia|exact Hra].
    rewrite Hq in Ha. change (wrap32u 0) with 0 in Ha.
    rewrite <- Heq in Ha. vm_compute in Ha. discriminate Ha.
  - intros Hq. apply calculateCRC_eq_unsigned.
    rewrite !calculateCRC_register, fold_left_app. fold ra.
    unfold crc_register at 1.
    destruct (Z.eqb_spec q 0) as [Hz|_]; [contradiction|].
    rewrite Ha, lxor_ones_involutive. reflexivity.
Qed.

(** X11. With a nonzero reference CRC-32 of [a] as [previous],
    [calculateCRC] over [b] gives the reference CRC-32 of [a ++ b]. *)
Theorem calculateCRC_continues_reference (a b : list byte) :
  crc32_reference a <> 0 ->
  wrap32u (calculateCRC b (crc32_reference a)) = crc32_reference (a ++ b).
Proof.
  intros Hnz. rewrite calculateCRC_register. unfold crc32_reference at 2.
  rewrite fold_left_app. f_equal. f_equal.
  unfold crc_register. destruct (Z.eqb_spec (crc32_reference a) 0) as [Hz|_];
    [contradiction|].
  pose proof (fold_crc32_byte_range a 0xFFFFFFFF ltac:(lia)) as Hr.
  unfold crc32_reference.
  rewrite wrap32u_small by (apply lxor_range; [exact Hr | lia]).
  apply lxor_ones_involutive.
Qed.

Lemma calculateCRC_continues_reference_witness :
  wrap32u (calculateCRC (list_byte_of_string "6789")
             (crc32_reference (list_byte_of_string "12345")))
  = crc32_reference (list_byte_of_string "12345" ++ list_byte_of_string "6789").
Proof.
  apply (calculateCRC_continues_reference (list_byte_of_string "12345")
           (list_byte_of_string "6789")).
  vm_compute. discriminate.
Defined.

(** X12. [calculateCRC] gives the reference CRC-32 of its input exactly when
    [previous] is a nonzero multiple of 2^32; in particular never with the
    default. *)
Theorem calculateCRC_reference_iff (bytes : list byte) (previous : Z) :
  wrap32u (calculateCRC bytes previous) = crc32_reference bytes
  <-> previous <> 0 /\ previous mod 2 ^ 32 = 0.
Proof.
  rewrite calculateCRC_register. unfold crc32_reference. split.
  - intros H.
    apply (f_equal (fun x => Z.lxor x 0xFFFFFFFF)) in H.
    rewrite !lxor_ones_involutive in H.
    apply fold_crc32_byte_inj in H; [|apply crc_register_range|lia].
    unfold crc_register in H. destruct (Z.eqb_spec previous 0) as [Hz|Hnz];
      [discriminate H|].
    split; [exact Hnz|].
    apply (f_equal (fun x => Z.lxor x 0xFFFFFFFF)) in H.
    rewrite lxor_ones_involutive in H. exact H.
  - intros [Hnz Hm]. unfold crc_register.
    destruct (Z.eqb_spec previous 0) as [Hz|_]; [contradiction|].
    unfold wrap32u. rewrite Hm. reflexivity.
Qed.

(** ** The file setPhysChunk returns *)

Lemma encode_pHYs_written (dpr : number) :
  encode_chunk (pHYs_written dpr) = pHYs_chunk dpr.
Proof. reflexivity. Qed.

Lemma wf_pHYs_written (dpr : number) : wf_chunk (pHYs_written dpr).
Proof. repeat split; cbn; lia. Qed.

Lemma chunk_name_pHYs_written (dpr : number) : chunk_name (pHYs_written dpr) = "pHYs".
Proof. reflexivity. Qed.

Lemma chunk_span_pHYs_written (dpr : number) : chunk_span (pHYs_written dpr) = 21.
Proof. reflexivity. Qed.

Lemma png_bytes_split (pre post : list Chunk) (iend : Chunk) (trailing : list byte) :
  Forall wf_chunk pre ->
  png_bytes (pre ++ post) iend trailing
  = (signature_bytes ++ flat_map encode_chunk pre)
    ++ (flat_map encode_chunk post ++ encode_chunk iend ++ trailing)
  /\ length (signature_bytes ++ flat_map encode_chunk pre)
     = Z.to_nat (8 + chunks_span pre).
Proof.
  intros Hwf. split.
  - unfold png_bytes. rewrite flat_map_app, <- !app_assoc. reflexivity.
  - pose proof (length_flat_encode pre Hwf) as Hl.
    rewrite length_app. change (length signature_bytes) with 8%nat. lia.
Qed.

Lemma valid_png_insert (pre post : list Chunk) (c iend : Chunk) :
  wf_chunk c -> chunk_name c <> "IEND" ->
  valid_png (pre ++ post) iend -> valid_png (pre ++ c :: post) iend.
Proof.
  intros Hc Hn [Hwf Hne Hwi Hni Hie].
  apply Forall_app in Hwf as [Hwf1 Hwf2]. apply Forall_app in Hne as [Hne1 Hne2].
  constructor; try assumption.
  - apply Forall_app. split; [exact Hwf1 | constructor; assumption].
  - apply Forall_app. split; [exact Hne1 | constructor; assumption].
Qed.

(** The output of [setPhysChunk] on a file with an [IDAT] chunk is the same
    chunk sequence with the new chunk put in front of the first [IDAT]. *)
Lemma setPhysChunk_output_bytes (fuel : nat) (st : Store) (b : nat)
    (pre rest : list Chunk) (idat iend : Chunk) (trailing : list byte)
    (dpr : number) (options : option BlobPropertyBag) :
  valid_png (pre ++ idat :: rest) iend ->
  chunk_name idat = "IDAT" ->
  Forall (fun c => chunk_name c <> "IDAT") pre ->
  ArrayBuffer_data st b = png_bytes (pre ++ idat :: rest) iend trailing ->
  (length (pre ++ idat :: rest) < fuel)%nat ->
  fst (setPhysChunk fuel (new_DataView st b) dpr options st)
  = Ok {| blob_data := png_bytes (pre ++ pHYs_written dpr :: idat :: rest) iend trailing;
          blob_options := options |}.
Proof.
  intros Hv Hn Hpre Hd Hfuel.
  pose proof (setPhysChunk_before_IDAT fuel st b pre rest idat iend trailing dpr options
                Hv Hn Hpre Hd Hfuel) as Hrun.
  cbv zeta in Hrun. rewrite Hrun. f_equal. f_equal.
  assert (Hwf : Forall wf_chunk pre).
  { destruct Hv as [Hwf _ _ _ _]. apply Forall_app in Hwf. tauto. }
  destruct (png_bytes_split pre (idat :: rest) iend trailing Hwf) as [-> Hlen].
  destruct (png_bytes_split pre (pHYs_written dpr :: idat :: rest) iend trailing Hwf)
    as [-> _].
  rewrite <- Hlen, take_app_length, drop_app_length.
  rewrite <- !app_assoc. reflexivity.
Qed.

(** X13. On a buffer whose first eight bytes are not the PNG signature
    [setPhysChunk] throws [Failed to set physical dimensions], whatever the
    ratio and options, and allocates nothing. *)
Theorem setPhysChunk_rejects_non_png (fuel : nat) (st : Store) (b : nat) (dpr : number)
    (options : option BlobPropertyBag) :
  take 8 (ArrayBuffer_data st b) <> signature_bytes ->
  setPhysChunk fuel (new_DataView st b) dpr options st
  = (Throw (Error "Failed to set physical dimensions"), st).
Proof.
  intros Hsig.
  assert (Hr : readChunks fuel st (new_DataView st b) 0
               = Throw (Error "Failed to read PNG chunks")).
  { apply readChunks_bad_signature. intros H. apply Hsig, isPng_true_signature, H. }
  rewrite setPhysChunk_no_table by (intros chunks; rewrite Hr; discriminate).
  rewrite Hr. reflexivity.
Qed.

Lemma setPhysChunk_rejects_non_png_witness :
  setPhysChunk 0 (new_DataView [list_byte_of_string "GIF89a"] 0) (Int 2) None
    [list_byte_of_string "GIF89a"]
  = (Throw (Error "Failed to set physical dimensions"), [list_byte_of_string "GIF89a"]).
Proof.
  apply (setPhysChunk_rejects_non_png 0 [list_byte_of_string "GIF89a"] 0 (Int 2) None).
  vm_compute. discriminate.
Defined.

(** X14. On a well-formed file with an [IDAT] chunk the output of
    [setPhysChunk] is again a well-formed chunk sequence: the input's chunks
    with one 21-byte [pHYs] chunk in front of the first [IDAT], the [IEND]
    chunk and the trailing bytes unchanged. *)
Theorem setPhysChunk_output_layout (fuel : nat) (st : Store) (b : nat)
    (pre rest : list Chunk) (idat iend : Chunk) (trailing : list byte)
    (dpr : number) (options : option BlobPropertyBag) :
  valid_png (pre ++ idat :: rest) iend ->
  chunk_name idat = "IDAT" ->
  Forall (fun c => chunk_name c <> "IDAT") pre ->
  ArrayBuffer_data st b = png_bytes (pre ++ idat :: rest) iend trailing ->
  (length (pre ++ idat :: rest) < fuel)%nat ->
  fst (setPhysChunk fuel (new_DataView st b) dpr options st)
  = Ok {| blob_data := png_bytes (pre ++ pHYs_written dpr :: idat :: rest) iend trailing;
          blob_options := options |}
  /\ valid_png (pre ++ pHYs_written dpr :: idat :: rest) iend
  /\ chunk_name (pHYs_written dpr) = "pHYs"
  /\ chunk_span (pHYs_written dpr) = 21.
Proof.
  intros Hv Hn Hpre Hd Hfuel. split.
  - exact (setPhysChunk_output_bytes fuel st b pre rest idat iend trailing dpr options
             Hv Hn Hpre Hd Hfuel).
  - split; [|split; reflexivity].
    apply valid_png_insert; [apply wf_pHYs_written | discriminate | exact Hv].
Qed.

Lemma setPhysChunk_output_layout_witness :
  fst (setPhysChunk 3 (new_DataView [png_plain] 0) (Int 2) (Some {| bag_type := Some "image/png"; bag_endings := None |})
         [png_plain])
  = Ok {| blob_data := png_bytes ([IHDR_1x1] ++ [pHYs_written (Int 2); IDAT_1x1]) IEND [];
          blob_options := Some {| bag_type := Some "image/png"; bag_endings := None |} |}
  /\ valid_png ([IHDR_1x1] ++ [pHYs_written (Int 2); IDAT_1x1]) IEND
  /\ chunk_name (pHYs_written (Int 2)) = "pHYs"
  /\ chunk_span (pHYs_written (Int 2)) = 21.
Proof.
  apply (setPhysChunk_output_layout 3 [png_plain] 0 [IHDR_1x1] [] IDAT_1x1 IEND []
           (Int 2) (Some {| bag_type := Some "image/png"; bag_endings := None |})).
  - solve_valid_png.
  - reflexivity.
  - repeat constructor. vm_compute. discriminate.
  - reflexivity.
  - cbn. lia.
Defined.

(** X15. Reading the output back with the module's own functions: when no
    [pHYs] chunk follows the first [IDAT], [findChunk] on the output finds
    the new chunk (at the old start of [IDAT], 9 data bytes) even if the
    input had a [pHYs] chunk of its own, [parsePhys] at its data offset
    gives the written density, and [IDAT] is found 21 bytes further on. *)
Theorem setPhysChunk_output_reparsed (fuel : nat) (st : Store) (b : nat)
    (pre rest : list Chunk) (idat iend : Chunk) (trailing : list byte)
    (dpr : number) (options : option BlobPropertyBag) :
  valid_png (pre ++ idat :: rest) iend ->
  chunk_name idat = "IDAT" ->
  Forall (fun c => chunk_name c <> "IDAT") pre ->
  Forall (fun c => chunk_name c <> "pHYs") rest ->
  ArrayBuffer_data st b = png_bytes (pre ++ idat :: rest) iend trailing ->
  (length (pre ++ idat :: rest) < fuel)%nat ->
  exists blob,
    fst (setPhysChunk fuel (new_DataView st b) dpr options st) = Ok blob /\
    forall st' b',
      ArrayBuffer_data st' b' = blob_data blob ->
      let view' := new_DataView st' b' in
      let at_IDAT := 8 + chunks_span pre in
      findChunk (S fuel) st' view' "pHYs"
      = Ok (Some {| PngChunk.dataOffset := at_IDAT + 8; PngChunk.size := 9;
                    PngChunk.start := at_IDAT |})
      /\ findChunk (S fuel) st' view' "IDAT"
         = Ok (Some {| PngChunk.dataOffset := at_IDAT + 21 + 8;
                       PngChunk.size := Z.of_nat (length (chunk_data idat));
                       PngChunk.start := at_IDAT + 21 |})
      /\ exists p,
           parsePhys st' view' (at_IDAT + 8) = Ok p /\
           PhysicalDimensions.ppux p = ToUint32 (number_mul DPI_96 dpr) /\
           PhysicalDimensions.ppuy p = ToUint32 (number_mul DPI_96 dpr).
Proof.
  intros Hv Hn Hpre Hrest Hd Hfuel.
  eexists. split.
  { exact (setPhysChunk_output_bytes fuel st b pre rest idat iend trailing dpr options
             Hv Hn Hpre Hd Hfuel). }
  intros st' b' Hd' view' at_IDAT. cbn [blob_data] in Hd'.
  assert (Hv' : valid_png (pre ++ pHYs_written dpr :: idat :: rest) iend).
  { apply valid_png_insert; [apply wf_pHYs_written | discriminate | exact Hv]. }
  assert (Hfuel' : (length (pre ++ pHYs_written dpr :: idat :: rest) < S fuel)%nat).
  { rewrite length_app in *. cbn [length] in *. lia. }
  assert (Hwf : Forall wf_chunk pre).
  { destruct Hv as [Hwf _ _ _ _]. apply Forall_app in Hwf. tauto. }
  split; [|split].
  - unfold view'.
    rewrite (findChunk_valid st' b' _ iend trailing (S fuel) "pHYs" Hv' Hd' Hfuel').
    f_equal.
    change "pHYs" with (chunk_name (pHYs_written dpr)).
    rewrite chunk_table_last_wins.
    + reflexivity.
    + discriminate.
    + constructor; [rewrite Hn; discriminate | exact Hrest].
  - unfold view'.
    rewrite (findChunk_valid st' b' _ iend trailing (S fuel) "IDAT" Hv' Hd' Hfuel').
    f_equal.
    change (pre ++ pHYs_written dpr :: idat :: rest)
      with (pre ++ [pHYs_written dpr] ++ idat :: rest).
    rewrite app_assoc.
    rewrite chunk_table_first_IDAT.
    + rewrite chunks_span_app. unfold chunk_entry, at_IDAT.
      change (chunks_span [pHYs_written dpr]) with 21.
      f_equal. f_equal; lia.
    + exact Hn.
    + apply Forall_app. split; [exact Hpre | constructor; [discriminate | constructor]].
    + apply lookup_empty.
  - destruct (png_bytes_split pre (pHYs_written dpr :: idat :: rest) iend trailing Hwf)
      as [Hsplit Hlen].
    rewrite Hsplit in Hd'.
    change (flat_map encode_chunk (pHYs_written dpr :: idat :: rest))
      with (pHYs_chunk dpr ++ flat_map encode_chunk (idat :: rest)) in Hd'.
    rewrite <- (app_assoc (pHYs_chunk dpr)) in Hd'.
    destruct (parsePhys_written st' b' _ _ dpr Hd') as [Hp _].
    pose proof (chunks_span_nonneg pre) as Hnn.
    replace (Z.of_nat (length (signature_bytes ++ flat_map encode_chunk pre)) + 8)
      with (at_IDAT + 8) in Hp by (unfold at_IDAT; lia).
    eexists. split; [exact Hp|]. split; reflexivity.
Qed.

Lemma setPhysChunk_output_reparsed_witness :
  exists blob,
    fst (setPhysChunk 4 (new_DataView [png_with_phys] 0) (Int 2) None [png_with_phys])
    = Ok blob /\
    forall st' b',
      ArrayBuffer_data st' b' = blob_data blob ->
      let view' := new_DataView st' b' in
      let at_IDAT := 8 + chunks_span [IHDR_1x1; pHYs_72dpi] in
      findChunk 5 st' view' "pHYs"
      = Ok (Some {| PngChunk.dataOffset := at_IDAT + 8; PngChunk.size := 9;
                    PngChunk.start := at_IDAT |})
      /\ findChunk 5 st' view' "IDAT"
         = Ok (Some {| PngChunk.dataOffset := at_IDAT + 21 + 8;
                       PngChunk.size := Z.of_nat (length (chunk_data IDAT_1x1));
                       PngChunk.start := at_IDAT + 21 |})
      /\ exists p,
           parsePhys st' view' (at_IDAT + 8) = Ok p /\
           PhysicalDimensions.ppux p = ToUint32 (number_mul DPI_96 (Int 2)) /\
           PhysicalDimensions.ppuy p = ToUint32 (number_mul DPI_96 (Int 2)).
Proof.
  apply (setPhysChunk_output_reparsed 4 [png_with_phys] 0 [IHDR_1x1; pHYs_72dpi] []
           IDAT_1x1 IEND [] (Int 2) None).
  - solve_valid_png.
  - reflexivity.
  - repeat constructor; vm_compute; discriminate.
  - constructor.
  - reflexivity.
  - cbn. lia.
Defined.

Lemma be32_inj (x y : Z) : be32 x = be32 y -> wrap32u x = wrap32u y.
Proof.
  intros H. apply (f_equal be_decode) in H. rewrite !be_decode_be32 in H. exact H.
Qed.

Lemma crc32_reference_range (bytes : list byte) : 0 <= crc32_reference bytes < 2 ^ 32.
Proof.
  unfold crc32_reference. apply lxor_range; [|lia].
  apply fold_crc32_byte_range. lia.
Qed.

Lemma pHYs_chunk_fields (dpr : number) (post : list byte) :
  take 8 (pHYs_chunk dpr ++ post) = be32 9 ++ pHYs_type
  /\ take 13 (drop 4 (pHYs_chunk dpr ++ post)) = pHYs_body dpr
  /\ take 4 (drop 17 (pHYs_chunk dpr ++ post)) = be32 (calculateCRC (pHYs_body dpr) 0).
Proof. repeat split; reflexivity. Qed.

(** X16. On every well-formed file the output of [setPhysChunk] contains,
    at some position [k], a chunk header [00 00 00 09 pHYs] whose CRC field
    (bytes [k + 17] to [k + 20]) differs from the reference CRC-32 of the 13
    type and data bytes before it. *)
Theorem setPhysChunk_writes_invalid_crc (fuel : nat) (st : Store) (b : nat)
    (chunks : list Chunk) (iend : Chunk) (trailing : list byte) (dpr : number)
    (options : option BlobPropertyBag) :
  valid_png chunks iend ->
  ArrayBuffer_data st b = png_bytes chunks iend trailing ->
  (length chunks < fuel)%nat ->
  exists blob k,
    fst (setPhysChunk fuel (new_DataView st b) dpr options st) = Ok blob /\
    take 8 (drop k (blob_data blob)) = be32 9 ++ pHYs_type /\
    take 4 (drop (k + 17) (blob_data blob))
    <> be32 (crc32_reference (take 13 (drop (k + 4) (blob_data blob)))).
Proof.
  intros Hv Hd Hfuel.
  pose proof (setPhysChunk_valid fuel st b chunks iend trailing dpr options Hv Hd Hfuel)
    as Hrun.
  cbv zeta in Hrun.
  destruct (splice_range (chunk_table 8 chunks ∅ !! "pHYs")
              (chunk_table 8 chunks ∅ !! "IDAT")) as [offset size].
  rewrite Hrun. cbn [fst].
  set (sb := slice_bytes (png_bytes chunks iend trailing) 0 (Some offset)).
  set (eb := slice_bytes (png_bytes chunks iend trailing) (offset + size) None).
  eexists. exists (length sb). split; [reflexivity|]. cbn [blob_data].
  rewrite !drop_app_add, drop_app_length.
  destruct (pHYs_chunk_fields dpr eb) as (H8 & H13 & H4).
  rewrite H8, H13, H4. split; [reflexivity|].
  intros Heq. apply be32_inj in Heq.
  rewrite (wrap32u_small (crc32_reference _)) in Heq by apply crc32_reference_range.
  exact (calculateCRC_never_reference _ Heq).
Qed.

Lemma setPhysChunk_writes_invalid_crc_witness :
  exists blob k,
    fst (setPhysChunk 3 (new_DataView [png_plain] 0) (Int 1) None [png_plain]) = Ok blob /\
    take 8 (drop k (blob_data blob)) = be32 9 ++ pHYs_type /\
    take 4 (drop (k + 17) (blob_data blob))
    <> be32 (crc32_reference (take 13 (drop (k + 4) (blob_data blob)))).
Proof.
  apply (setPhysChunk_writes_invalid_crc 3 [png_plain] 0 [IHDR_1x1; IDAT_1x1] IEND []
           (Int 1) None).
  - solve_valid_png.
  - reflexivity.
  - cbn. lia.
Defined.

Lemma ToInt32_DPI_integer (n : Z) :
  0 <= n -> 5671 * n < 2 ^ 32 ->
  ToInt32 (number_mul DPI_96 (Int n)) = 5671 * n / 2.
Proof.
  intros Hn Hlt. unfold number_mul, DPI_96, Int, round53.
  assert (Hbits : (Z.log2 (Z.abs (5671 * n)) + 1 <=? 53) = true).
  { apply Z.leb_le. rewrite Z.abs_eq by lia.
    destruct (Z.eq_dec n 0) as [->|Hne]; [vm_compute; discriminate|].
    assert (Z.log2 (5671 * n) < 32) by (apply Z.log2_lt_pow2; lia). lia. }
  cbv zeta. rewrite Hbits.
  unfold ToInt32, truncate. change (0 <=? -1 + 0) with false. cbn iota.
  change (2 ^ (- (-1 + 0))) with 2.
  rewrite Z.quot_div_nonneg by lia.
  apply wrap32s_small.
  assert (0 <= 5671 * n / 2) by (apply Z.div_pos; lia).
  assert (5671 * n / 2 < 2 ^ 31) by (apply Z.div_lt_upper_bound; lia).
  lia.
Qed.

(** X17. For an integer ratio [n] with [0 <= n] and [5671 * n < 2^32] the
    chunk that [setPhysChunk] writes on a well-formed file carries
    [floor (2835.5 * n)] in both density fields and 1 as its unit byte. *)
Theorem setPhysChunk_integer_ratio (fuel : nat) (st : Store) (b : nat)
    (chunks : list Chunk) (iend : Chunk) (trailing : list byte) (n : Z)
    (options : option BlobPropertyBag) :
  valid_png chunks iend ->
  ArrayBuffer_data st b = png_bytes chunks iend trailing ->
  (length chunks < fuel)%nat ->
  0 <= n -> 5671 * n < 2 ^ 32 ->
  exists blob k,
    fst (setPhysChunk fuel (new_DataView st b) (Int n) options st) = Ok blob /\
    take 17 (drop k (blob_data blob))
    = be32 9 ++ pHYs_type ++ be32 (5671 * n / 2) ++ be32 (5671 * n / 2) ++ [byte_of_Z 1].
Proof.
  intros Hv Hd Hfuel Hn Hlt.
  pose proof (setPhysChunk_valid fuel st b chunks iend trailing (Int n) options Hv Hd Hfuel)
    as Hrun.
  cbv zeta in Hrun.
  destruct (splice_range (chunk_table 8 chunks ∅ !! "pHYs")
              (chunk_table 8 chunks ∅ !! "IDAT")) as [offset size].
  rewrite Hrun. cbn [fst].
  set (sb := slice_bytes (png_bytes chunks iend trailing) 0 (Some offset)).
  eexists. exists (length sb). split; [reflexivity|]. cbn [blob_data].
  rewrite drop_app_length, pHYs_chunk_layout.
  rewrite (ToInt32_DPI_integer n Hn Hlt). reflexivity.
Qed.

Lemma setPhysChunk_integer_ratio_witness :
  exists blob k,
    fst (setPhysChunk 3 (new_DataView [png_plain] 0) (Int 3) None [png_plain]) = Ok blob /\
    take 17 (drop k (blob_data blob))
    = be32 9 ++ pHYs_type ++ be32 (5671 * 3 / 2) ++ be32 (5671 * 3 / 2) ++ [byte_of_Z 1].
Proof.
  apply (setPhysChunk_integer_ratio 3 [png_plain] 0 [IHDR_1x1; IDAT_1x1] IEND [] 3 None).
  - solve_valid_png.
  - reflexivity.
  - cbn. lia.
  - lia.
  - lia.
Defined.

(** X18. [setPhysChunk] is not idempotent on files with an [IDAT] chunk:
    applied to its own output it adds a second 21-byte chunk, again in front
    of the first [IDAT], and keeps the one written before. *)
Theorem setPhysChunk_twice (fuel : nat) (st : Store) (b : nat)
    (pre rest : list Chunk) (idat iend : Chunk) (trailing : list byte)
    (dpr1 dpr2 : number) (options1 options2 : option BlobPropertyBag) :
  valid_png (pre ++ idat :: rest) iend ->
  chunk_name idat = "IDAT" ->
  Forall (fun c => chunk_name c <> "IDAT") pre ->
  ArrayBuffer_data st b = png_bytes (pre ++ idat :: rest) iend trailing ->
  (length (pre ++ idat :: rest) < fuel)%nat ->
  exists blob,
    fst (setPhysChunk fuel (new_DataView st b) dpr1 options1 st) = Ok blob /\
    forall st' b',
      ArrayBuffer_data st' b' = blob_data blob ->
      fst (setPhysChunk (S fuel) (new_DataView st' b') dpr2 options2 st')
      = Ok {| blob_data :=
                png_bytes (pre ++ pHYs_written dpr1 :: pHYs_written dpr2 :: idat :: rest)
                  iend trailing;
              blob_options := options2 |}.
Proof.
  intros Hv Hn Hpre Hd Hfuel.
  eexists. split.
  { exact (setPhysChunk_output_bytes fuel st b pre rest idat iend trailing dpr1 options1
             Hv Hn Hpre Hd Hfuel). }
  intros st' b' Hd'. cbn [blob_data] in Hd'.
  assert (Hre : forall tl, pre ++ pHYs_written dpr1 :: tl = (pre ++ [pHYs_written dpr1]) ++ tl).
  { intros tl. rewrite <- app_assoc. reflexivity. }
  rewrite Hre in Hd'. rewrite Hre.
  apply setPhysChunk_output_bytes.
  - rewrite <- Hre. apply valid_png_insert; [apply wf_pHYs_written | discriminate | exact Hv].
  - exact Hn.
  - apply Forall_app. split; [exact Hpre | constructor; [discriminate | constructor]].
  - exact Hd'.
  - rewrite !length_app in *. cbn [length] in *. lia.
Qed.

Lemma setPhysChunk_twice_witness :
  exists blob,
    fst (setPhysChunk 3 (new_DataView [png_plain] 0) (Int 1) None [png_plain]) = Ok blob /\
    forall st' b',
      ArrayBuffer_data st' b' = blob_data blob ->
      fst (setPhysChunk 4 (new_DataView st' b') (Int 2) None st')
      = Ok {| blob_data :=
                png_bytes ([IHDR_1x1] ++ [pHYs_written (Int 1); pHYs_written (Int 2);
                                          IDAT_1x1]) IEND [];
              blob_options := None |}.
Proof.
  apply (setPhysChunk_twice 3 [png_plain] 0 [IHDR_1x1] [] IDAT_1x1 IEND []
           (Int 1) (Int 2) None None).
  - solve_valid_png.
  - reflexivity.
  - repeat constructor. vm_compute. discriminate.
  - reflexivity.
  - cbn. lia.
Defined.
